(** * A static-file HTTP/1.0 server: [src/server.c]

    Shallow embedding of the request-handling pipeline of [server.c]
    ([send_response], [send_error], [read_file], [get_content_type] and
    [handle_client]) together with the C library routines it calls, and
    the properties of the specification proved or refuted on it.

    C strings are lists of characters without the terminating NUL; the
    operating system (file system, allocator, socket) is an explicit
    oracle record, and every system call the handler makes is logged in a
    trace of events. *)

From Stdlib Require Import ZArith Ascii String List Bool Lia.
Import ListNotations.
Open Scope Z_scope.

(* ================================================================== *)
(** ** C strings *)

Definition cstr := list ascii.

(** A string literal of the source. *)
Definition lit (s : string) : cstr := list_ascii_of_string s.

Definition NUL : ascii := "000"%char.
Definition CR : ascii := "013"%char.
Definition LF : ascii := "010"%char.
Definition DQUOTE : ascii := "034"%char.
Definition CRLF : cstr := [CR; LF].

Definition code (c : ascii) : Z := Z.of_nat (nat_of_ascii c).

(** The C string stored in a buffer: the bytes before the first NUL. *)
Fixpoint c_string (buf : list ascii) : cstr :=
  match buf with
  | [] => []
  | c :: rest => if Ascii.eqb c NUL then [] else c :: c_string rest
  end.

Definition strlen (s : cstr) : Z := Z.of_nat (length s).

(** [strcmp]: only the sign of the result is specified by the C standard. *)
Fixpoint strcmp (a b : cstr) : Z :=
  match a, b with
  | [], [] => 0
  | [], _ :: _ => -1
  | _ :: _, [] => 1
  | x :: a', y :: b' =>
      if Ascii.eqb x y then strcmp a' b'
      else if code x <? code y then -1 else 1
  end.

(** [strncmp a b n]: compares at most [n] characters. *)
Fixpoint strncmp (a b : cstr) (n : nat) {struct n} : Z :=
  match n with
  | O => 0
  | S n' =>
      match a, b with
      | [], [] => 0
      | [], _ :: _ => -1
      | _ :: _, [] => 1
      | x :: a', y :: b' =>
          if Ascii.eqb x y then strncmp a' b' n'
          else if code x <? code y then -1 else 1
      end
  end.

(** [strchr s c]: the suffix of [s] starting at the first [c], if any. *)
Fixpoint strchr (s : cstr) (c : ascii) : option cstr :=
  match s with
  | [] => None
  | x :: rest => if Ascii.eqb x c then Some s else strchr rest c
  end.

(** [strrchr s c]: the suffix of [s] starting at the last [c], if any. *)
Fixpoint strrchr (s : cstr) (c : ascii) : option cstr :=
  match s with
  | [] => None
  | x :: rest =>
      match strrchr rest c with
      | Some r => Some r
      | None => if Ascii.eqb x c then Some s else None
      end
  end.

(** [p = strchr(s, c); if (p) *p = '\0';]: the string that is left in
    the buffer of [s]. *)
Fixpoint cut_at (c : ascii) (s : cstr) : cstr :=
  match s with
  | [] => []
  | x :: rest => if Ascii.eqb x c then [] else x :: cut_at c rest
  end.

Fixpoint starts_with (needle s : cstr) : bool :=
  match needle, s with
  | [], _ => true
  | _ :: _, [] => false
  | x :: n', y :: s' => Ascii.eqb x y && starts_with n' s'
  end.

(** [strstr s needle != NULL]. *)
Fixpoint strstr (s needle : cstr) : bool :=
  starts_with needle s ||
  match s with
  | [] => false
  | _ :: rest => strstr rest needle
  end.

(** [isspace] in the C locale. *)
Definition isspace (c : ascii) : bool :=
  let n := code c in (n =? 32) || ((9 <=? n) && (n <=? 13)).

(* ------------------------------------------------------------------ *)
(** *** Formatted output *)

Definition digit (d : Z) : ascii := ascii_of_nat (Z.to_nat (48 + d)).

(** Decimal digits of a non-negative number, most significant first.  The
    fuel is the largest number of digits a 64-bit value has. *)
Fixpoint digits (fuel : nat) (n : Z) (acc : cstr) : cstr :=
  match fuel with
  | O => acc
  | S fuel' =>
      let acc' := digit (n mod 10) :: acc in
      if n / 10 =? 0 then acc' else digits fuel' (n / 10) acc'
  end.

(** The conversions [%d] and [%ld]. *)
Definition print_dec (n : Z) : cstr :=
  if n <? 0 then "-"%char :: digits 20 (- n) [] else digits 20 n [].

(** [snprintf(buf, size, ...)] where the format expands to [s]: the
    string left in [buf] and the value returned (the length the output
    would have had without the bound). *)
Definition snprintf (size : nat) (s : cstr) : cstr * Z :=
  (firstn (size - 1) s, strlen s).

(** The value of a decimal numeral, to read a printed header field back. *)
Definition dec_value (s : cstr) : Z :=
  fold_left (fun acc c => 10 * acc + (code c - 48)) s 0.

(* ------------------------------------------------------------------ *)
(** *** Formatted input: [sscanf(buf, "%7s %255s %15s", ...)] *)

Fixpoint skip_ws (s : cstr) : cstr :=
  match s with
  | [] => []
  | c :: rest => if isspace c then skip_ws rest else s
  end.

(** At most [width] leading characters that are not white space, and the
    rest of the input. *)
Fixpoint take_token (width : nat) (s : cstr) : cstr * cstr :=
  match width, s with
  | O, _ => ([], s)
  | _, [] => ([], [])
  | S w, c :: rest =>
      if isspace c then ([], s)
      else let '(tok, r) := take_token w rest in (c :: tok, r)
  end.

(** The conversion [%<width>s]: skips white space, fails at the end of
    the input, otherwise stores a non-empty token. *)
Definition scan_s (width : nat) (s : cstr) : option (cstr * cstr) :=
  match skip_ws s with
  | [] => None
  | (_ :: _) as s' => Some (take_token width s')
  end.

Definition EOF : Z := -1.

(** The number of conversions done (or [EOF]) and the three arrays; an
    array that was not assigned is shown empty. *)
Definition sscanf_request (buf : cstr) : Z * (cstr * cstr * cstr) :=
  match scan_s 7 buf with
  | None => (EOF, ([], [], []))
  | Some (method, r1) =>
      match scan_s 255 (skip_ws r1) with
      | None => (1, (method, [], []))
      | Some (path, r2) =>
          match scan_s 15 (skip_ws r2) with
          | None => (2, (method, path, []))
          | Some (protocol, _) => (3, (method, path, protocol))
          end
      end
  end.

(* ================================================================== *)
(** ** [get_content_type] *)

Definition get_content_type (path : cstr) : cstr :=
  match strrchr path "."%char with
  | None => lit "text/plain"
  | Some ext =>
      if strcmp ext (lit ".html") =? 0 then lit "text/html"
      else if (strcmp ext (lit ".jpg") =? 0) || (strcmp ext (lit ".jpeg") =? 0)
      then lit "image/jpeg"
      else if strcmp ext (lit ".png") =? 0 then lit "image/png"
      else if strcmp ext (lit ".css") =? 0 then lit "text/css"
      else if strcmp ext (lit ".js") =? 0 then lit "application/javascript"
      else lit "application/octet-stream"
  end.

(* ================================================================== *)
(** ** The operating system *)

Definition MAXDATASIZE : nat := 4096.

(** [PATH_MAX] of [<limits.h>] (its value on Linux). *)
Definition PATH_MAX : nat := 4096.

Definition LONG_MAX : Z := 2 ^ 63 - 1.

(** A value stored in a [long] (64 bits, two's complement). *)
Definition long_of (z : Z) : Z :=
  let m := z mod 2 ^ 64 in if m <? 2 ^ 63 then m else m - 2 ^ 64.

(** Conversion to [size_t] (64 bits). *)
Definition to_size_t (z : Z) : Z := z mod 2 ^ 64.

(** Conversion of a [size_t] to [int] (32 bits, two's complement). *)
Definition int_of_size_t (z : Z) : Z :=
  let m := z mod 2 ^ 32 in if m <? 2 ^ 31 then m else m - 2 ^ 32.

(** What an opened stream does: the position [ftell] reports after
    [fseek(file, 0, SEEK_END)], and the bytes [fread] can deliver after
    [rewind] ([fread] stops earlier when fewer are asked for). *)
Record file := { f_tell : Z; f_avail : list ascii }.

Record OS := {
  os_realpath : cstr -> option cstr;   (* [realpath]: NULL or the resolved path *)
  os_fopen : cstr -> option file;      (* [fopen(path, "rb")] *)
  os_malloc : Z -> bool;               (* does [malloc(n)] return a block? *)
  os_send : nat -> list ascii -> Z     (* result of the k-th [send] of the connection *)
}.

(** What [recv(new_fd, buf, MAXDATASIZE - 1, 0)] finds on the socket: an
    error, or the bytes that are pending (none after an orderly shutdown). *)
Inductive recv_result :=
| RecvError
| RecvData (pending : list ascii).

Inductive event :=
| ESend (data : list ascii)
| ERealpath (path : cstr)
| EFopen (path : cstr)
| EMalloc (n : Z)
| EFread (n : Z)
| EFclose
| EFree
| EClose
| EUndefined.

(** Computations that log the system calls they make. *)
Definition M (A : Type) : Type := list event -> A * list event.

Definition ret {A} (a : A) : M A := fun tr => (a, tr).

Definition bind {A B} (m : M A) (k : A -> M B) : M B :=
  fun tr => let '(a, tr') := m tr in k a tr'.

Notation "x <- c1 ;; c2" := (bind c1 (fun x => c2))
  (at level 61, c1 at next level, right associativity).
Notation "c1 ;; c2" := (bind c1 (fun _ => c2))
  (at level 61, right associativity).

Definition emit (e : event) : M unit := fun tr => (tt, tr ++ [e]).

Definition is_send (e : event) : bool :=
  match e with ESend _ => true | _ => false end.

Definition count_sends (tr : list event) : nat :=
  length (filter is_send tr).

Inductive load :=
| Loaded (buffer : list ascii) (size : Z)
| LoadNull
| LoadUndefined.

(** Lines 179-185: the target with everything from the first [?], and
    then everything from the first [#], cut off. *)
Definition strip_query (path : cstr) : cstr :=
  let path := cut_at "?"%char path in
  cut_at "#"%char path.

(** Lines 203-208: the string the two [snprintf] calls leave in
    [requested_path] for an already stripped [path]. *)
Definition requested_path_of (root_dir path : cstr) : cstr :=
  fst (snprintf PATH_MAX
         (if strcmp path (lit "/") =? 0
          then root_dir ++ lit "/index.html"
          else root_dir ++ path)).

(** The bytes [recv] stores, and the C string [sscanf] sees once
    [buf[numbytes]] is set to NUL. *)
Definition received (pending : list ascii) : list ascii :=
  firstn (MAXDATASIZE - 1) pending.

Definition request_text (pending : list ascii) : cstr :=
  c_string (received pending).

Section Server.

Variable os : OS.

(** [send(fd, buf, len, 0)] and its return value.  [buf] is the defined
    content of the array; were [len] larger, the call would read past it
    (see [send_response_run] and [ok_header_fits]: it never is). *)
Definition send (buf : list ascii) (len : Z) : M Z :=
  fun tr =>
    let data := firstn (Z.to_nat len) buf in
    (os_send os (count_sends tr) data, tr ++ [ESend data]).

Definition close : M unit := emit EClose.

Definition realpath (path : cstr) : M (option cstr) :=
  emit (ERealpath path) ;; ret (os_realpath os path).

(** The header that both [send_response] and [handle_client] format. *)
Definition header_format (status : cstr) (content_type : cstr) (len : Z) : cstr :=
  lit "HTTP/1.0 " ++ status ++ CRLF ++
  lit "Content-Type: " ++ content_type ++ CRLF ++
  lit "Content-Length: " ++ print_dec len ++ CRLF ++
  CRLF.

Definition send_response (status_code : Z) (status_text content_type : cstr)
    (body : option cstr) : M unit :=
  let body_len :=
    match body with Some b => int_of_size_t (strlen b) | None => 0 end in
  let '(header, header_len) :=
    snprintf 512
      (header_format (print_dec status_code ++ lit " " ++ status_text)
         content_type body_len) in
  send header header_len ;;
  match body with
  | Some b => if 0 <? body_len then send b body_len ;; ret tt else ret tt
  | None => ret tt
  end.

Definition error_body (message : cstr) : cstr :=
  lit "{" ++ [DQUOTE] ++ lit "error" ++ [DQUOTE] ++ lit ": " ++
  [DQUOTE] ++ message ++ [DQUOTE] ++ lit "}".

Definition send_error (code : Z) (message : cstr) : M unit :=
  let '(body, _) := snprintf 256 (error_body message) in
  if code =? 400 then
    send_response 400 (lit "Bad Request") (lit "application/json") (Some body)
  else if code =? 403 then
    send_response 403 (lit "Forbidden") (lit "application/json") (Some body)
  else if code =? 404 then
    send_response 404 (lit "Not Found") (lit "application/json") (Some body)
  else if code =? 500 then
    send_response 500 (lit "Internal Server Error") (lit "application/json")
      (Some body)
  else
    send_response code (lit "Error") (lit "application/json") (Some body).

(** [read_file]: the buffer and [*out_size], or NULL.  The behaviour is
    undefined when [size + 1] overflows, when [fread] stores more bytes
    than were allocated, or when [buffer[size]] is outside the block
    (all of which need [ftell] to report an error or [LONG_MAX]). *)
Definition read_file (file_path : cstr) : M load :=
  emit (EFopen file_path) ;;
  match os_fopen os file_path with
  | None => ret LoadNull
  | Some file =>
      let size := long_of (f_tell file) in
      if size =? LONG_MAX then ret LoadUndefined
      else
        let allocated := to_size_t (size + 1) in
        emit (EMalloc allocated) ;;
        if negb (os_malloc os allocated) then emit EFclose ;; ret LoadNull
        else
          let bytes_read :=
            Z.min (to_size_t size) (Z.of_nat (length (f_avail file))) in
          emit (EFread (to_size_t size)) ;;
          if allocated <? bytes_read then ret LoadUndefined
          else
            emit EFclose ;;
            if negb (bytes_read =? to_size_t size) then
              emit EFree ;; ret LoadNull
            else if size <? 0 then ret LoadUndefined
            else ret (Loaded (firstn (Z.to_nat bytes_read) (f_avail file)) size)
  end.

(** Lines 179-260 of [handle_client]: what is done with the tokens once
    [sscanf] has stored all three.  When [realpath(root_dir, real_root)]
    returns NULL, line 224 reads the array [real_root] that was never
    written: the behaviour is undefined from there on, the trace ends with
    [EUndefined], and the model says nothing of what a compiled program
    goes on to do (it may well open and send a file).  The same holds
    where [read_file] leaves defined behaviour.  A property of every run
    therefore holds of the runs that log no [EUndefined]. *)
Definition handle_request (root_dir method path : cstr) : M unit :=
  (* Remove query string and fragments *)
  let path := strip_query path in
  (* Basic security: block path traversal *)
  if strstr path (lit "..") then
    send_error 403 (lit "Forbidden path traversal") ;; close
  (* Only support GET requests *)
  else if negb (strcmp method (lit "GET") =? 0) then
    send_error 501 (lit "Only GET is supported") ;; close
  else
    (* Default file (index.html) *)
    let requested_path := requested_path_of root_dir path in
    (* Resolve absolute path *)
    rp <- realpath requested_path ;;
    match rp with
    | None => send_error 404 (lit "File not found") ;; close
    | Some real_requested_path =>
        (* Resolve absolute root directory *)
        rr <- realpath root_dir ;;
        match rr with
        | None => emit EUndefined (* [real_root] is read uninitialised *)
        | Some real_root =>
            (* Check if requested file is inside root_dir *)
            if negb (strncmp real_requested_path real_root
                       (Z.to_nat (strlen real_root)) =? 0) then
              send_error 403 (lit "Forbidden path") ;; close
            else
              (* Read file *)
              l <- read_file real_requested_path ;;
              match l with
              | LoadNull => send_error 404 (lit "File not found") ;; close
              | LoadUndefined => emit EUndefined
              | Loaded body file_size =>
                  (* Send the file with correct Content-Type *)
                  let content_type := get_content_type real_requested_path in
                  let '(header, header_len) :=
                    snprintf 512
                      (header_format (lit "200 OK") content_type file_size) in
                  send header header_len ;;
                  sent <- send body file_size ;;
                  (if sent =? -1
                   then send_error 500 (lit "Failed to send response body")
                   else ret tt) ;;
                  emit EFree ;;
                  close
              end
        end
    end.

Definition handle_client (root_dir : cstr) (r : recv_result) : M unit :=
  let '(numbytes, buf) :=
    match r with
    | RecvError => (-1, [])
    | RecvData pending =>
        let got := received pending in (strlen got, got)
    end in
  if numbytes <=? 0 then close
  else
    let '(n, (method, path, protocol)) := sscanf_request (c_string buf) in
    if negb (n =? 3) then send_error 400 (lit "Malformed request") ;; close
    else handle_request root_dir method path.

(** The system calls of one connection, in order. *)
Definition serve (root_dir : cstr) (r : recv_result) : list event :=
  snd (handle_client root_dir r []).

End Server.

(* ================================================================== *)
(** ** Vocabulary of the specification *)

(** The reason phrase [send_error] selects for a status code. *)
Definition status_text (code : Z) : cstr :=
  if code =? 400 then lit "Bad Request"
  else if code =? 403 then lit "Forbidden"
  else if code =? 404 then lit "Not Found"
  else if code =? 500 then lit "Internal Server Error"
  else lit "Error".

(** An error response as it is handed to the socket: the header block,
    then the JSON body. *)
Definition error_response (code : Z) (message : cstr) : list event :=
  [ ESend (header_format (print_dec code ++ lit " " ++ status_text code)
             (lit "application/json") (strlen (error_body message)));
    ESend (error_body message) ].

(** The byte strings handed to [send], in order. *)
Fixpoint sends (tr : list event) : list (list ascii) :=
  match tr with
  | [] => []
  | ESend d :: rest => d :: sends rest
  | _ :: rest => sends rest
  end.

(** Does the first thing sent start with the status line of [code]? *)
Definition has_status (code : Z) (tr : list event) : bool :=
  match sends tr with
  | [] => false
  | h :: _ => starts_with (lit "HTTP/1.0 " ++ print_dec code ++ lit " ") h
  end.

(** A header block that announces exactly the body [b]: it ends with the
    Content-Length field and an empty line, and the decimal numeral of the
    field denotes the length of [b]. *)
Definition frames (h b : list ascii) : Prop :=
  (exists status content_type,
      h = lit "HTTP/1.0 " ++ status ++ CRLF ++
          lit "Content-Type: " ++ content_type ++ CRLF ++
          lit "Content-Length: " ++ print_dec (strlen b) ++ CRLF ++
          CRLF) /\
  dec_value (print_dec (strlen b)) = strlen b.

(** The sends of a connection are header/body pairs, each header framing
    its body. *)
Inductive well_framed : list (list ascii) -> Prop :=
| framed_nil : well_framed []
| framed_response h b rest :
    frames h b -> well_framed rest -> well_framed (h :: b :: rest).

(** [b] is what [fread] delivered from a file that the trace opened. *)
Definition body_of_opened_file (os : OS) (tr : list event) (b : list ascii) : Prop :=
  exists p f,
    In (EFopen p) tr /\ os_fopen os p = Some f /\
    strlen b = long_of (f_tell f) /\ b = firstn (length b) (f_avail f).

(** The white-space separated tokens of a text. *)
Fixpoint ws_tokens_from (cur : cstr) (s : cstr) : list cstr :=
  match s with
  | [] => match cur with [] => [] | _ :: _ => [cur] end
  | c :: rest =>
      if isspace c then
        match cur with
        | [] => ws_tokens_from [] rest
        | _ :: _ => cur :: ws_tokens_from [] rest
        end
      else ws_tokens_from (cur ++ [c]) rest
  end.

Definition ws_tokens (s : cstr) : list cstr := ws_tokens_from [] s.

(** The first line of a text: what precedes the first line feed. *)
Definition first_line (s : cstr) : cstr := cut_at LF s.

(** The longest prefix without white space, and what follows it. *)
Fixpoint span_word (s : cstr) : cstr * cstr :=
  match s with
  | [] => ([], [])
  | c :: rest =>
      if isspace c then ([], s)
      else let '(w, r) := span_word rest in (c :: w, r)
  end.

(** A text without white space, and a text that does not go on with a
    character other than white space. *)
Definition word (w : cstr) : Prop := Forall (fun c => isspace c = false) w.

Definition ends_word (r : cstr) : Prop :=
  match r with [] => True | c :: _ => isspace c = true end.

(** Fewer than three tokens, none longer than the field that receives it. *)
Definition short_of_three_tokens (s : cstr) : Prop :=
  match ws_tokens s with
  | [] => True
  | [w1] => (length w1 <= 7)%nat
  | [w1; w2] => (length w1 <= 7)%nat /\ (length w2 <= 255)%nat
  | _ => False
  end.

Definition cstr_eq_dec : forall a b : cstr, {a = b} + {a <> b} :=
  list_eq_dec ascii_dec.

(** [p] lies strictly below the directory [root] (both canonical): [p]
    is [root], a separator, and at least one more character. *)
Definition strict_descendant (root p : cstr) : bool :=
  if cstr_eq_dec root (lit "/")
  then starts_with root p && (length root <? length p)%nat
  else starts_with (root ++ lit "/") p && (length root + 1 <? length p)%nat.

(** The extension table of section 4.4. *)
Definition mime_table : list (cstr * cstr) :=
  [ (lit "html", lit "text/html");
    (lit "jpg", lit "image/jpeg");
    (lit "jpeg", lit "image/jpeg");
    (lit "png", lit "image/png");
    (lit "css", lit "text/css");
    (lit "js", lit "application/javascript") ].

Fixpoint assoc {A} (k : cstr) (tbl : list (cstr * A)) : option A :=
  match tbl with
  | [] => None
  | (k', v) :: rest => if cstr_eq_dec k k' then Some v else assoc k rest
  end.

Definition mime_of_extension (ext : cstr) : cstr :=
  match assoc ext mime_table with
  | Some t => t
  | None => lit "application/octet-stream"
  end.

(** The responses among the sends: header block and body, pairwise. *)
Fixpoint responses (out : list (list ascii)) : list (list ascii * list ascii) :=
  match out with
  | h :: b :: rest => (h, b) :: responses rest
  | _ => []
  end.

(** Is [h] the header block of a 200 response? *)
Definition is_ok (h : list ascii) : bool := starts_with (lit "HTTP/1.0 200 ") h.

(** The header block of a success response for the file at [real_path]
    with content [body]. *)
Definition ok_header (real_path : cstr) (body : list ascii) : list ascii :=
  header_format (lit "200 OK") (get_content_type real_path) (strlen body).

Definition send_failure : cstr := lit "Failed to send response body".

(** What one connection can put on the socket, given the events [tr] it
    logged: nothing; one error response with a status code among [codes];
    or the success response for a file that resolved under a path with
    the canonical root as a prefix, possibly followed by the advisory 500
    response. *)
Inductive conversation (os : OS) (root_dir : cstr) (codes : list Z)
    (tr : list event) : list (list ascii) -> Prop :=
| conv_silent : conversation os root_dir codes tr []
| conv_error code message :
    In code codes -> (length message <= 200)%nat ->
    conversation os root_dir codes tr (sends (error_response code message))
| conv_ok real_root real_path body tail :
    os_realpath os root_dir = Some real_root ->
    starts_with real_root real_path = true ->
    body_of_opened_file os tr body ->
    In (EFopen real_path) tr ->
    tail = [] \/ tail = sends (error_response 500 send_failure) ->
    conversation os root_dir codes tr (ok_header real_path body :: body :: tail).

(* ------------------------------------------------------------------ *)
(** *** A small site, for examples *)

(** [/srv/www] holds [index.html] and [style.css]; [leak] is a symbolic
    link to a file of the sibling directory [/srv/www-private], [out] a
    symbolic link to the unreadable [/etc/shadow]. *)
Definition site_realpath : list (cstr * cstr) :=
  [ (lit "/srv/www", lit "/srv/www");
    (lit "/srv/www/index.html", lit "/srv/www/index.html");
    (lit "/srv/www/style.css", lit "/srv/www/style.css");
    (lit "/srv/www/short.txt", lit "/srv/www/short.txt");
    (lit "/srv/www/leak", lit "/srv/www-private/key");
    (lit "/srv/www/out", lit "/etc/shadow") ].

Definition site_files : list (cstr * file) :=
  [ (lit "/srv/www/index.html",
     {| f_tell := 13; f_avail := lit "Hello World!" ++ [LF] |});
    (lit "/srv/www/style.css",
     {| f_tell := 15; f_avail := lit "body{margin:0}" ++ [LF] |});
    (lit "/srv/www/short.txt",
     {| f_tell := 10; f_avail := lit "1234" |});
    (lit "/srv/www-private/key",
     {| f_tell := 6; f_avail := lit "secret" |}) ].

(** Every allocation succeeds; [send] transmits everything, or fails on
    the calls listed in [failing]. *)
Definition site (failing : list nat) : OS :=
  {| os_realpath := fun p => assoc p site_realpath;
     os_fopen := fun p => assoc p site_files;
     os_malloc := fun _ => true;
     os_send := fun k d =>
       if existsb (Nat.eqb k) failing then -1 else strlen d |}.

Definition www : cstr := lit "/srv/www".

Definition request (line : string) : recv_result :=
  RecvData (lit line ++ CRLF ++ CRLF).

(** A target of 271 bytes. *)
Definition long_target : cstr := lit "/" ++ repeat "a"%char 270.

Definition long_request : list ascii :=
  lit "GET " ++ long_target ++ lit " HTTP/1.0" ++ CRLF ++ CRLF.

(* ================================================================== *)
(** ** [main]: start-up and the accept loop *)

(** One entry of the list [getaddrinfo] returns: whether [socket], [bind]
    and [listen] succeed for it. *)
Record candidate := {
  cand_socket : bool;
  cand_bind : bool;
  cand_listen : bool
}.

(** An accepted connection: how the system behaves while it is handled,
    and what [recv] finds on it. *)
Record connection := { conn_os : OS; conn_recv : recv_result }.

(** What one call of [accept] returns: -1, or a connection. *)
Inductive accept_result :=
| AcceptError
| Accepted (c : connection).

Inductive main_event :=
| MStderr (text : cstr)            (* [fprintf(stderr, ...)] *)
| MStdout (text : cstr)            (* [printf(...)] *)
| MPerror (what : cstr)            (* [perror(what)] *)
| MGetaddrinfo (port : cstr)
| MSocket (i : nat)                (* [socket] for the i-th candidate *)
| MBind (i : nat)
| MListen (i : nat)
| MCloseSocket (i : nat)           (* [close(sockfd)] *)
| MAccept
| MConnection (tr : list event).   (* [handle_client(new_fd, root_dir)] *)

(** [exit(code)], or still inside [while (1)] once the accepts observed
    so far have been handled. *)
Inductive main_result :=
| Exit (code : Z)
| Running.

(** The bytes the source has in front of its two log messages. *)
Definition listening_mark : cstr :=
  map ascii_of_nat [195; 162; 197; 147; 226; 128; 166]%nat.

Definition connected_mark : cstr :=
  map ascii_of_nat [195; 176; 197; 184; 226; 128; 153; 194; 187]%nat.

(** Lines 292-313: the candidates are tried in order, from the i-th on;
    the result is the index of the one the server listens on. *)
Fixpoint try_candidates (cands : list candidate) (i : nat)
  : option nat * list main_event :=
  match cands with
  | [] => (None, [])
  | c :: rest =>
      if negb (cand_socket c) then
        let '(r, evs) := try_candidates rest (S i) in
        (r, [MSocket i; MPerror (lit "socket")] ++ evs)
      else if negb (cand_bind c) then
        let '(r, evs) := try_candidates rest (S i) in
        (r, [MSocket i; MBind i; MPerror (lit "bind"); MCloseSocket i] ++ evs)
      else if negb (cand_listen c) then
        let '(r, evs) := try_candidates rest (S i) in
        (r, [MSocket i; MBind i; MListen i; MPerror (lit "listen");
             MCloseSocket i] ++ evs)
      else (Some i, [MSocket i; MBind i; MListen i])
  end.

(** Lines 320-331: one iteration of [while (1)] for each result of
    [accept] observed. *)
Fixpoint accept_loop (root_dir : cstr) (accepts : list accept_result)
  : list main_event :=
  match accepts with
  | [] => []
  | AcceptError :: rest =>
      [MAccept; MPerror (lit "accept")] ++ accept_loop root_dir rest
  | Accepted c :: rest =>
      [MAccept; MStdout (connected_mark ++ lit " Client connected!" ++ [LF]);
       MConnection (serve (conn_os c) root_dir (conn_recv c))] ++
      accept_loop root_dir rest
  end.

(** [main]: [argv] with the program name first; [getaddrinfo] gives the
    text of [gai_strerror] or the candidates for a port. *)
Definition main (argv : list cstr)
    (getaddrinfo : cstr -> cstr + list candidate)
    (accepts : list accept_result) : main_result * list main_event :=
  if Z.of_nat (length argv) <? 3 then
    (Exit 1,
     [MStderr (lit "Usage: " ++ nth 0 argv [] ++
               lit " <port> <root_directory>" ++ [LF])])
  else
    let port := nth 1 argv [] in
    let root_dir := nth 2 argv [] in
    match getaddrinfo port with
    | inl message =>
        (Exit 1,
         [MGetaddrinfo port;
          MStderr (lit "getaddrinfo error: " ++ message ++ [LF])])
    | inr cands =>
        match try_candidates cands 0 with
        | (None, evs) =>
            (Exit 2,
             [MGetaddrinfo port] ++ evs ++
             [MStderr (lit "Failed to bind socket" ++ [LF])])
        | (Some _, evs) =>
            (Running,
             [MGetaddrinfo port] ++ evs ++
             [MStdout (listening_mark ++ lit " Server listening on port " ++
                       port ++ [LF])] ++
             accept_loop root_dir accepts)
        end
    end.

(* ================================================================== *)
(** ** Vocabulary for the runs of a connection *)

(** Events that neither send, open, free nor close the connection. *)
Definition inert (e : event) : bool :=
  match e with EMalloc _ | EFread _ | EFclose => true | _ => false end.

(** The ways [read_file] can run: what it returns and what it logs. *)
Inductive read_file_run (os : OS) (p : cstr) : load -> list event -> Prop :=
| rf_not_opened :
    os_fopen os p = None ->
    read_file_run os p LoadNull [EFopen p]
| rf_no_memory f :
    os_fopen os p = Some f ->
    long_of (f_tell f) <> LONG_MAX ->
    os_malloc os (to_size_t (long_of (f_tell f) + 1)) = false ->
    read_file_run os p LoadNull
      [EFopen p; EMalloc (to_size_t (long_of (f_tell f) + 1)); EFclose]
| rf_short f :
    os_fopen os p = Some f ->
    os_malloc os (to_size_t (long_of (f_tell f) + 1)) = true ->
    Z.of_nat (length (f_avail f)) < to_size_t (long_of (f_tell f)) ->
    read_file_run os p LoadNull
      [EFopen p; EMalloc (to_size_t (long_of (f_tell f) + 1));
       EFread (to_size_t (long_of (f_tell f))); EFclose; EFree]
| rf_loaded f :
    os_fopen os p = Some f ->
    0 <= long_of (f_tell f) < LONG_MAX ->
    os_malloc os (long_of (f_tell f) + 1) = true ->
    long_of (f_tell f) <= Z.of_nat (length (f_avail f)) ->
    read_file_run os p
      (Loaded (firstn (Z.to_nat (long_of (f_tell f))) (f_avail f))
         (long_of (f_tell f)))
      [EFopen p; EMalloc (long_of (f_tell f) + 1);
       EFread (long_of (f_tell f)); EFclose]
| rf_undefined rest :
    forallb inert rest = true ->
    read_file_run os p LoadUndefined (EFopen p :: rest).

(** The ways lines 179-260 of [handle_client] can run. *)
Inductive request_run (os : OS) (root_dir method path : cstr)
  : list event -> Prop :=
| rq_traversal :
    strstr (strip_query path) (lit "..") = true ->
    request_run os root_dir method path
      (error_response 403 (lit "Forbidden path traversal") ++ [EClose])
| rq_not_get :
    strstr (strip_query path) (lit "..") = false ->
    method <> lit "GET" ->
    request_run os root_dir method path
      (error_response 501 (lit "Only GET is supported") ++ [EClose])
| rq_unresolved :
    strstr (strip_query path) (lit "..") = false ->
    method = lit "GET" ->
    os_realpath os (requested_path_of root_dir (strip_query path)) = None ->
    request_run os root_dir method path
      ([ERealpath (requested_path_of root_dir (strip_query path))] ++
       error_response 404 (lit "File not found") ++ [EClose])
| rq_root_unresolved real_path :
    strstr (strip_query path) (lit "..") = false ->
    method = lit "GET" ->
    os_realpath os (requested_path_of root_dir (strip_query path)) =
      Some real_path ->
    os_realpath os root_dir = None ->
    request_run os root_dir method path
      [ERealpath (requested_path_of root_dir (strip_query path));
       ERealpath root_dir; EUndefined]
| rq_outside real_path real_root :
    strstr (strip_query path) (lit "..") = false ->
    method = lit "GET" ->
    os_realpath os (requested_path_of root_dir (strip_query path)) =
      Some real_path ->
    os_realpath os root_dir = Some real_root ->
    starts_with real_root real_path = false ->
    request_run os root_dir method path
      ([ERealpath (requested_path_of root_dir (strip_query path));
        ERealpath root_dir] ++
       error_response 403 (lit "Forbidden path") ++ [EClose])
| rq_loading real_path real_root l evs :
    strstr (strip_query path) (lit "..") = false ->
    method = lit "GET" ->
    os_realpath os (requested_path_of root_dir (strip_query path)) =
      Some real_path ->
    os_realpath os root_dir = Some real_root ->
    starts_with real_root real_path = true ->
    read_file_run os real_path l evs ->
    request_run os root_dir method path
      ([ERealpath (requested_path_of root_dir (strip_query path));
        ERealpath root_dir] ++ evs ++
       match l with
       | LoadNull => error_response 404 (lit "File not found") ++ [EClose]
       | LoadUndefined => [EUndefined]
       | Loaded body _ =>
           [ESend (ok_header real_path body); ESend body] ++
           (if os_send os 1 body =? -1
            then error_response 500 send_failure else []) ++
           [EFree; EClose]
       end).

(** The ways [handle_client] can run. *)
Inductive connection_run (os : OS) (root_dir : cstr)
  : recv_result -> list event -> Prop :=
| cr_error : connection_run os root_dir RecvError [EClose]
| cr_shutdown : connection_run os root_dir (RecvData []) [EClose]
| cr_malformed pending :
    pending <> [] ->
    fst (sscanf_request (request_text pending)) <> 3 ->
    connection_run os root_dir (RecvData pending)
      (error_response 400 (lit "Malformed request") ++ [EClose])
| cr_request pending method path protocol tr :
    sscanf_request (request_text pending) = (3, (method, path, protocol)) ->
    request_run os root_dir method path tr ->
    connection_run os root_dir (RecvData pending) tr.

(** How many events of a trace satisfy a test. *)
Definition count (test : event -> bool) (tr : list event) : nat :=
  length (filter test tr).

Definition is_close (e : event) : bool :=
  match e with EClose => true | _ => false end.

Definition is_fclose (e : event) : bool :=
  match e with EFclose => true | _ => false end.

Definition is_free (e : event) : bool :=
  match e with EFree => true | _ => false end.

Definition is_undefined (e : event) : bool :=
  match e with EUndefined => true | _ => false end.

(** A [fopen] that returned a stream, a [malloc] that returned a block. *)
Definition opens_stream (os : OS) (e : event) : bool :=
  match e with
  | EFopen p => match os_fopen os p with Some _ => true | None => false end
  | _ => false
  end.

Definition gets_block (os : OS) (e : event) : bool :=
  match e with EMalloc n => os_malloc os n | _ => false end.

(** Does the file system see anything of the trace? *)
Definition touches_files (e : event) : bool :=
  match e with
  | ERealpath _ | EFopen _ | EMalloc _ | EFread _ | EFclose | EFree => true
  | _ => false
  end.

(** The fields [%7s %255s %15s] cut from a list of tokens: each field
    takes at most its width from the first token left and leaves the rest
    of that token, if any, as the next token. *)
Definition next_field (width : nat) (tokens : list cstr)
  : option (cstr * list cstr) :=
  match tokens with
  | [] => None
  | w :: rest =>
      Some (firstn width w,
            if (width <? length w)%nat then skipn width w :: rest else rest)
  end.

Definition three_fields (tokens : list cstr) : option (cstr * cstr * cstr) :=
  match next_field 7 tokens with
  | None => None
  | Some (method, t1) =>
      match next_field 255 t1 with
      | None => None
      | Some (path, t2) =>
          match next_field 15 t2 with
          | None => None
          | Some (protocol, _) => Some (method, path, protocol)
          end
      end
  end.

(** Too few tokens for three fields: none; one of at most 7 + 255
    characters; or two, the first of at most 7 and the second of at most
    255 characters. *)
Definition lacks_fields (tokens : list cstr) : Prop :=
  match tokens with
  | [] => True
  | [w1] => (length w1 <= 262)%nat
  | [w1; w2] => (length w1 <= 7)%nat /\ (length w2 <= 255)%nat
  | _ => False
  end.

Definition usable (c : candidate) : bool :=
  cand_socket c && cand_bind c && cand_listen c.

(** The index of the first candidate for which [socket], [bind] and
    [listen] all succeed. *)
Fixpoint first_usable (cands : list candidate) : option nat :=
  match cands with
  | [] => None
  | c :: rest => if usable c then Some 0%nat else option_map S (first_usable rest)
  end.

(** [bind] is called for every socket that was created; [close] closes
    one. *)
Definition binds (e : main_event) : bool :=
  match e with MBind _ => true | _ => false end.

Definition closes_socket (e : main_event) : bool :=
  match e with MCloseSocket _ => true | _ => false end.

Definition count_main (test : main_event -> bool) (evs : list main_event) : nat :=
  length (filter test evs).

(** A host on which only the third address can be listened on, and two
    clients with a failed [accept] between them. *)
Definition three_candidates : list candidate :=
  [ {| cand_socket := false; cand_bind := true; cand_listen := true |};
    {| cand_socket := true; cand_bind := false; cand_listen := true |};
    {| cand_socket := true; cand_bind := true; cand_listen := true |} ].

Definition two_clients : list accept_result :=
  [ Accepted {| conn_os := site []; conn_recv := request "GET / HTTP/1.0" |};
    AcceptError;
    Accepted {| conn_os := site []; conn_recv := request "POST / HTTP/1.0" |} ].

Definition server_argv : list cstr := [lit "./server"; lit "8080"; www].

(** The traces of the connections [main] handled, in order. *)
Fixpoint connections (evs : list main_event) : list (list event) :=
  match evs with
  | [] => []
  | MConnection tr :: rest => tr :: connections rest
  | _ :: rest => connections rest
  end.

Fixpoint accepted (accepts : list accept_result) : list connection :=
  match accepts with
  | [] => []
  | AcceptError :: rest => accepted rest
  | Accepted c :: rest => c :: accepted rest
  end.

(** The small site, with an allocator that always fails. *)
Definition site_no_memory : OS :=
  {| os_realpath := os_realpath (site []);
     os_fopen := os_fopen (site []);
     os_malloc := fun _ => false;
     os_send := os_send (site []) |}.

(* ================================================================== *)
(** ** Facts about the C library model *)

Lemma strcmp_refl (a : cstr) : strcmp a a = 0.
Proof.
  induction a as [|x a IH]; simpl; [reflexivity|].
  now rewrite Ascii.eqb_refl.
Qed.

Lemma strcmp_zero (a b : cstr) : strcmp a b = 0 <-> a = b.
Proof.
  split; [|intros ->; apply strcmp_refl].
  revert b; induction a as [|x a IH]; intros [|y b]; simpl;
    try reflexivity; try discriminate.
  destruct (Ascii.eqb x y) eqn:E.
  - apply Ascii.eqb_eq in E; subst y. intros H. f_equal. now apply IH.
  - destruct (code x <? code y); discriminate.
Qed.

Lemma strcmp_eqb (a b : cstr) :
  (strcmp a b =? 0) = if cstr_eq_dec a b then true else false.
Proof.
  destruct (cstr_eq_dec a b) as [->|N].
  - now rewrite strcmp_refl.
  - apply Z.eqb_neq. intros H. now apply N, strcmp_zero.
Qed.

Lemma strncmp_zero (a b : cstr) :
  strncmp a b (length b) = 0 <-> starts_with b a = true.
Proof.
  revert a; induction b as [|y b IH]; intros a; simpl.
  - split; reflexivity.
  - destruct a as [|x a]; [split; discriminate|].
    rewrite (Ascii.eqb_sym y x).
    destruct (Ascii.eqb x y); simpl.
    + apply IH.
    + destruct (code x <? code y); split; discriminate.
Qed.

Lemma starts_with_app (r p : cstr) :
  starts_with r p = true <-> exists rest, p = r ++ rest.
Proof.
  revert p; induction r as [|x r IH]; intros p; simpl.
  - split; [intros _; now exists p | reflexivity].
  - destruct p as [|y p].
    + split; [discriminate | intros [rest H]; discriminate].
    + rewrite andb_true_iff, Ascii.eqb_eq, IH. split.
      * intros [-> [rest ->]]. now exists rest.
      * intros [rest H]. injection H as -> ->. split; [reflexivity | now exists rest].
Qed.

Lemma strrchr_none (p : cstr) (c : ascii) :
  ~ In c p -> strrchr p c = None.
Proof.
  induction p as [|x p IH]; simpl; [reflexivity|].
  intros N. rewrite IH by tauto.
  destruct (Ascii.eqb x c) eqn:E; [|reflexivity].
  apply Ascii.eqb_eq in E. tauto.
Qed.

Lemma strrchr_last (stem ext : cstr) (c : ascii) :
  ~ In c ext -> strrchr (stem ++ c :: ext) c = Some (c :: ext).
Proof.
  intros N. induction stem as [|x stem IH]; simpl.
  - now rewrite (strrchr_none ext c N), Ascii.eqb_refl.
  - now rewrite IH.
Qed.

Lemma length_digits (fuel : nat) (n : Z) (acc : cstr) :
  (length (digits fuel n acc) <= fuel + length acc)%nat.
Proof.
  revert n acc; induction fuel as [|fuel IH]; intros n acc; simpl; [lia|].
  destruct (n / 10 =? 0); simpl; [lia|].
  specialize (IH (n / 10) (digit (n mod 10) :: acc)). simpl in IH. lia.
Qed.

Lemma length_print_dec (n : Z) : (length (print_dec n) <= 21)%nat.
Proof.
  unfold print_dec. destruct (n <? 0).
  - pose proof (length_digits 20 (- n) []) as H.
    change (length (@nil ascii)) with 0%nat in H.
    change (length ("-"%char :: digits 20 (- n) []))
      with (S (length (digits 20 (- n) []))). lia.
  - pose proof (length_digits 20 n []) as H.
    change (length (@nil ascii)) with 0%nat in H. lia.
Qed.

Lemma digits_acc (fuel : nat) (n : Z) (acc : cstr) :
  digits fuel n acc = digits fuel n [] ++ acc.
Proof.
  revert n acc; induction fuel as [|fuel IH]; intros n acc; simpl; [reflexivity|].
  destruct (n / 10 =? 0); [reflexivity|].
  rewrite (IH _ (_ :: acc)), (IH _ [_]), <- app_assoc. reflexivity.
Qed.

Lemma code_digit (d : Z) : 0 <= d < 10 -> code (digit d) - 48 = d.
Proof.
  intros H. unfold code, digit.
  rewrite nat_ascii_embedding by lia. lia.
Qed.

Lemma dec_value_snoc (s : cstr) (c : ascii) :
  dec_value (s ++ [c]) = 10 * dec_value s + (code c - 48).
Proof.
  unfold dec_value. rewrite fold_left_app. reflexivity.
Qed.

Lemma dec_value_digits (fuel : nat) (n : Z) :
  0 <= n < 10 ^ Z.of_nat fuel -> dec_value (digits fuel n []) = n.
Proof.
  revert n; induction fuel as [|fuel IH]; intros n H.
  - change (10 ^ Z.of_nat 0) with 1 in H. cbn. lia.
  - rewrite Nat2Z.inj_succ, Z.pow_succ_r in H by lia.
    cbn [digits].
    assert (Hm : 0 <= n mod 10 < 10) by (apply Z.mod_pos_bound; lia).
    pose proof (Z.div_mod n 10 ltac:(lia)) as Hd.
    destruct (n / 10 =? 0) eqn:E.
    + apply Z.eqb_eq in E.
      change [digit (n mod 10)] with ([] ++ [digit (n mod 10)]).
      rewrite dec_value_snoc, code_digit by assumption. cbn. lia.
    + rewrite digits_acc, dec_value_snoc, code_digit by assumption.
      rewrite IH; [lia|]. split.
      * apply Z.div_pos; lia.
      * apply Z.div_lt_upper_bound; lia.
Qed.

Lemma dec_value_print_dec (n : Z) :
  0 <= n < 2 ^ 64 -> dec_value (print_dec n) = n.
Proof.
  intros H. unfold print_dec.
  destruct (n <? 0) eqn:E; [apply Z.ltb_lt in E; lia|].
  apply dec_value_digits. simpl. lia.
Qed.

Lemma int_of_size_t_small (z : Z) : 0 <= z < 2 ^ 31 -> int_of_size_t z = z.
Proof.
  intros H. unfold int_of_size_t.
  rewrite Z.mod_small by lia.
  destruct (z <? 2 ^ 31) eqn:E; [reflexivity|].
  apply Z.ltb_ge in E. lia.
Qed.

Lemma firstn_strlen (s : cstr) : firstn (Z.to_nat (strlen s)) s = s.
Proof.
  unfold strlen. rewrite Nat2Z.id. apply firstn_all.
Qed.

Lemma snprintf_fits (size : nat) (s : cstr) :
  (length s < size)%nat -> snprintf size s = (s, strlen s).
Proof.
  intros H. unfold snprintf. rewrite firstn_all2 by lia. reflexivity.
Qed.

(* ================================================================== *)
(** ** What the helpers log *)

Lemma length_header_format (status content_type : cstr) (len : Z) :
  length (header_format status content_type len) =
  (47 + length status + length content_type + length (print_dec len))%nat.
Proof.
  unfold header_format. rewrite !length_app. simpl. lia.
Qed.

Lemma length_error_body (message : cstr) :
  length (error_body message) = (13 + length message)%nat.
Proof.
  unfold error_body. rewrite !length_app. simpl. lia.
Qed.

Lemma length_status_text (code : Z) : (length (status_text code) <= 21)%nat.
Proof.
  unfold status_text.
  repeat match goal with |- context [if ?b then _ else _] => destruct b end;
    simpl; lia.
Qed.

Lemma length_get_content_type (path : cstr) :
  (length (get_content_type path) <= 24)%nat.
Proof.
  unfold get_content_type. destruct (strrchr path "."); [|simpl; lia].
  repeat match goal with |- context [if ?b then _ else _] => destruct b end;
    simpl; lia.
Qed.

Section Runs.

Variable os : OS.

Lemma send_run (buf : list ascii) (tr : list event) :
  send os buf (strlen buf) tr =
  (os_send os (count_sends tr) buf, tr ++ [ESend buf]).
Proof.
  unfold send. now rewrite firstn_strlen.
Qed.

Lemma count_sends_app (tr tr' : list event) :
  count_sends (tr ++ tr') = (count_sends tr + count_sends tr')%nat.
Proof.
  unfold count_sends. now rewrite filter_app, length_app.
Qed.

(** A response whose header fits the 512-byte array and whose body is not
    empty is sent as its header followed by its body. *)
Lemma send_response_run (status_code : Z) (text content_type body : cstr)
    (tr : list event) :
  (length text + length content_type <= 400)%nat ->
  (0 < length body < 1000)%nat ->
  send_response os status_code text content_type (Some body) tr =
  (tt, tr ++ [ ESend (header_format (print_dec status_code ++ lit " " ++ text)
                        content_type (strlen body));
               ESend body ]).
Proof.
  intros Hh Hb. unfold send_response.
  rewrite int_of_size_t_small by (unfold strlen; lia).
  rewrite snprintf_fits.
  - replace (0 <? strlen body) with true
      by (symmetry; apply Z.ltb_lt; unfold strlen; lia).
    unfold bind. rewrite send_run, send_run, <- app_assoc. reflexivity.
  - rewrite length_header_format, !length_app.
    pose proof (length_print_dec status_code).
    pose proof (length_print_dec (strlen body)).
    simpl. lia.
Qed.

(** [send_error] hands the header and the JSON body of [error_response]
    to the socket, whatever [send] returns. *)
Lemma send_error_run (code : Z) (message : cstr) (tr : list event) :
  (length message <= 200)%nat ->
  send_error os code message tr = (tt, tr ++ error_response code message).
Proof.
  intros Hm. unfold send_error, error_response, status_text.
  rewrite snprintf_fits by (rewrite length_error_body; lia).
  pose proof (length_error_body message) as Hl.
  destruct (code =? 400) eqn:E400;
    [apply Z.eqb_eq in E400; subst code
    |destruct (code =? 403) eqn:E403;
      [apply Z.eqb_eq in E403; subst code
      |destruct (code =? 404) eqn:E404;
        [apply Z.eqb_eq in E404; subst code
        |destruct (code =? 500) eqn:E500;
          [apply Z.eqb_eq in E500; subst code|]]]];
    apply send_response_run;
    solve [unfold lit; simpl; lia | rewrite Hl; lia].
Qed.

End Runs.

(* ================================================================== *)
(** ** The branches of [handle_client] *)

Ltac message_fits := unfold lit; simpl; lia.

Ltac run_step :=
  cbv beta iota zeta delta [bind realpath close emit ret negb].

Lemma sscanf_request_nil : sscanf_request [] = (EOF, ([], [], [])).
Proof. reflexivity. Qed.

Lemma received_nil (pending : list ascii) :
  received pending = [] -> pending = [].
Proof.
  unfold received. destruct pending; [reflexivity|discriminate].
Qed.

Lemma strlen_pos (s : list ascii) : s <> [] -> (strlen s <=? 0) = false.
Proof.
  intros H. apply Z.leb_gt. unfold strlen. destruct s; [congruence|].
  simpl length. lia.
Qed.

Section Branches.

Variable os : OS.
Variable root_dir : cstr.

(** Once [sscanf] has stored three tokens, the handler goes on with the
    method and the target; the protocol token is never looked at. *)
Lemma handle_client_parsed (pending : list ascii) (method path protocol : cstr) :
  sscanf_request (request_text pending) = (3, (method, path, protocol)) ->
  handle_client os root_dir (RecvData pending) =
  handle_request os root_dir method path.
Proof.
  intros H. unfold handle_client.
  assert (Hne : received pending <> []).
  { intros E. unfold request_text in H. rewrite E in H.
    simpl c_string in H. rewrite sscanf_request_nil in H. discriminate. }
  rewrite (strlen_pos _ Hne).
  unfold request_text in H. rewrite H. reflexivity.
Qed.

Lemma handle_client_malformed (pending : list ascii) :
  pending <> [] ->
  fst (sscanf_request (request_text pending)) <> 3 ->
  serve os root_dir (RecvData pending) =
  error_response 400 (lit "Malformed request") ++ [EClose].
Proof.
  intros Hne H. unfold serve, handle_client.
  rewrite strlen_pos by (intros E; apply received_nil in E; contradiction).
  unfold request_text in H.
  destruct (sscanf_request (c_string (received pending))) as [n [[m p] pr]].
  simpl in H. apply Z.eqb_neq in H. rewrite H. run_step.
  run_step. rewrite send_error_run by message_fits. reflexivity.
Qed.

Variables method path : cstr.
Variable tr : list event.

Lemma request_traversal :
  strstr (strip_query path) (lit "..") = true ->
  handle_request os root_dir method path tr =
  (tt, tr ++ error_response 403 (lit "Forbidden path traversal") ++ [EClose]).
Proof.
  intros H. unfold handle_request. rewrite H. run_step.
  rewrite send_error_run by message_fits.
  now rewrite <- app_assoc.
Qed.

Lemma request_not_get :
  strstr (strip_query path) (lit "..") = false ->
  method <> lit "GET" ->
  handle_request os root_dir method path tr =
  (tt, tr ++ error_response 501 (lit "Only GET is supported") ++ [EClose]).
Proof.
  intros H Hm. unfold handle_request. rewrite H.
  rewrite strcmp_eqb. destruct (cstr_eq_dec method (lit "GET")); [contradiction|].
  run_step.
  rewrite send_error_run by message_fits.
  now rewrite <- app_assoc.
Qed.

Hypothesis no_dots : strstr (strip_query path) (lit "..") = false.
Hypothesis is_get : method = lit "GET".

Let requested : cstr := requested_path_of root_dir (strip_query path).

Lemma request_unresolved :
  os_realpath os requested = None ->
  handle_request os root_dir method path tr =
  (tt, tr ++ [ERealpath requested] ++
         error_response 404 (lit "File not found") ++ [EClose]).
Proof.
  intros H. unfold handle_request. rewrite no_dots, is_get, strcmp_refl.
  change (0 =? 0) with true. run_step. fold requested. rewrite H.
  rewrite send_error_run by message_fits.
  now rewrite <- !app_assoc.
Qed.

Variables real_requested real_root : cstr.
Hypothesis resolved : os_realpath os requested = Some real_requested.
Hypothesis root_resolved : os_realpath os root_dir = Some real_root.

Lemma request_outside :
  starts_with real_root real_requested = false ->
  handle_request os root_dir method path tr =
  (tt, tr ++ [ERealpath requested; ERealpath root_dir] ++
         error_response 403 (lit "Forbidden path") ++ [EClose]).
Proof.
  intros H. unfold handle_request. rewrite no_dots, is_get, strcmp_refl.
  change (0 =? 0) with true. run_step. fold requested.
  rewrite resolved, root_resolved.
  unfold strlen. rewrite Nat2Z.id.
  destruct (strncmp real_requested real_root (length real_root) =? 0) eqn:E.
  - apply Z.eqb_eq, strncmp_zero in E. congruence.
  - run_step.
    rewrite send_error_run by message_fits.
    now rewrite <- !app_assoc.
Qed.

Hypothesis inside : starts_with real_root real_requested = true.

(** Past the containment check, the handler does what [read_file] says. *)
Lemma request_contained :
  handle_request os root_dir method path tr =
  (l <- read_file os real_requested ;;
   match l with
   | LoadNull => send_error os 404 (lit "File not found") ;; close
   | LoadUndefined => emit EUndefined
   | Loaded body file_size =>
       let content_type := get_content_type real_requested in
       let '(header, header_len) :=
         snprintf 512 (header_format (lit "200 OK") content_type file_size) in
       send os header header_len ;;
       sent <- send os body file_size ;;
       (if sent =? -1
        then send_error os 500 (lit "Failed to send response body")
        else ret tt) ;;
       emit EFree ;;
       close
   end) (tr ++ [ERealpath requested; ERealpath root_dir]).
Proof.
  unfold handle_request. rewrite no_dots, is_get, strcmp_refl.
  change (0 =? 0) with true. run_step. fold requested.
  rewrite resolved, root_resolved.
  unfold strlen at 1. rewrite Nat2Z.id.
  apply strncmp_zero in inside. rewrite inside. run_step.
  rewrite <- !app_assoc. reflexivity.
Qed.

End Branches.

(* ================================================================== *)
(** ** [read_file] *)

Lemma long_of_small (z : Z) : 0 <= z < LONG_MAX -> long_of z = z.
Proof.
  intros H. unfold long_of, LONG_MAX in *.
  rewrite Z.mod_small by lia.
  destruct (z <? 2 ^ 63) eqn:E; [reflexivity|]. apply Z.ltb_ge in E. lia.
Qed.

Lemma long_of_range (z : Z) : - 2 ^ 63 <= long_of z <= LONG_MAX.
Proof.
  unfold long_of, LONG_MAX.
  pose proof (Z.mod_pos_bound z (2 ^ 64) ltac:(lia)).
  destruct (z mod 2 ^ 64 <? 2 ^ 63) eqn:E;
    [apply Z.ltb_lt in E | apply Z.ltb_ge in E]; lia.
Qed.

Section ReadFile.

Variable os : OS.
Variable file_path : cstr.
Variable tr : list event.

Lemma read_file_not_opened :
  os_fopen os file_path = None ->
  read_file os file_path tr = (LoadNull, tr ++ [EFopen file_path]).
Proof.
  intros H. unfold read_file. run_step. now rewrite H.
Qed.

Variable f : file.
Hypothesis opened : os_fopen os file_path = Some f.
Hypothesis size_ok : 0 <= f_tell f < LONG_MAX.

Lemma size_t_of_size : to_size_t (f_tell f) = f_tell f.
Proof.
  unfold to_size_t, LONG_MAX in *. apply Z.mod_small. lia.
Qed.

Lemma size_t_of_allocation : to_size_t (f_tell f + 1) = f_tell f + 1.
Proof.
  unfold to_size_t, LONG_MAX in *. apply Z.mod_small. lia.
Qed.

Lemma read_file_no_memory :
  os_malloc os (f_tell f + 1) = false ->
  read_file os file_path tr =
  (LoadNull, tr ++ [EFopen file_path; EMalloc (f_tell f + 1); EFclose]).
Proof.
  intros H. unfold read_file. run_step. rewrite opened.
  rewrite long_of_small by assumption.
  replace (f_tell f =? LONG_MAX) with false by (symmetry; apply Z.eqb_neq; lia).
  rewrite size_t_of_allocation, H. run_step.
  now rewrite <- !app_assoc.
Qed.

Hypothesis allocated : os_malloc os (f_tell f + 1) = true.

(** A short read: the block is freed and NULL is returned. *)
Lemma read_file_short :
  Z.of_nat (length (f_avail f)) < f_tell f ->
  read_file os file_path tr =
  (LoadNull,
   tr ++ [EFopen file_path; EMalloc (f_tell f + 1); EFread (f_tell f);
          EFclose; EFree]).
Proof.
  intros H. unfold read_file. run_step. rewrite opened.
  rewrite long_of_small by assumption.
  replace (f_tell f =? LONG_MAX) with false by (symmetry; apply Z.eqb_neq; lia).
  rewrite size_t_of_allocation, size_t_of_size, allocated. run_step.
  rewrite Z.min_r by lia.
  replace (f_tell f + 1 <? Z.of_nat (length (f_avail f))) with false
    by (symmetry; apply Z.ltb_ge; lia).
  replace (Z.of_nat (length (f_avail f)) =? f_tell f) with false
    by (symmetry; apply Z.eqb_neq; lia).
  now rewrite <- !app_assoc.
Qed.

(** A full read: the buffer holds the first [size] bytes of the file. *)
Lemma read_file_full :
  f_tell f <= Z.of_nat (length (f_avail f)) ->
  read_file os file_path tr =
  (Loaded (firstn (Z.to_nat (f_tell f)) (f_avail f)) (f_tell f),
   tr ++ [EFopen file_path; EMalloc (f_tell f + 1); EFread (f_tell f);
          EFclose]).
Proof.
  intros H. unfold read_file. run_step. rewrite opened.
  rewrite long_of_small by assumption.
  replace (f_tell f =? LONG_MAX) with false by (symmetry; apply Z.eqb_neq; lia).
  rewrite size_t_of_allocation, size_t_of_size, allocated. run_step.
  rewrite Z.min_l by lia.
  replace (f_tell f + 1 <? f_tell f) with false
    by (symmetry; apply Z.ltb_ge; lia).
  rewrite Z.eqb_refl.
  replace (f_tell f <? 0) with false by (symmetry; apply Z.ltb_ge; lia).
  now rewrite <- !app_assoc.
Qed.

End ReadFile.

(** Whatever the file system does, [read_file] sends nothing, logs the
    [fopen] first, and a buffer it returns holds exactly [size] bytes, the
    ones [fread] delivered. *)
Lemma read_file_inv (os : OS) (file_path : cstr) (tr : list event) :
  exists evs,
    snd (read_file os file_path tr) = tr ++ EFopen file_path :: evs /\
    sends evs = [] /\
    forall body size,
      fst (read_file os file_path tr) = Loaded body size ->
      exists f,
        os_fopen os file_path = Some f /\ size = long_of (f_tell f) /\
        0 <= size < LONG_MAX /\ strlen body = size /\
        body = firstn (length body) (f_avail f).
Proof.
  unfold read_file. run_step.
  destruct (os_fopen os file_path) as [f|] eqn:Ho.
  2:{ exists []. repeat split; try reflexivity. discriminate. }
  pose proof (long_of_range (f_tell f)) as Hr.
  set (size := long_of (f_tell f)) in *.
  destruct (size =? LONG_MAX) eqn:Emax.
  { exists []. repeat split; try reflexivity. discriminate. }
  destruct (os_malloc os (to_size_t (size + 1))) eqn:Em; run_step.
  2:{ eexists. rewrite <- !app_assoc. repeat split; try reflexivity. discriminate. }
  destruct (to_size_t (size + 1) <?
            Z.min (to_size_t size) (Z.of_nat (length (f_avail f)))) eqn:Eov.
  { eexists. rewrite <- !app_assoc. repeat split; try reflexivity. discriminate. }
  destruct (Z.min (to_size_t size) (Z.of_nat (length (f_avail f))) =?
            to_size_t size) eqn:Er; run_step.
  2:{ eexists. rewrite <- !app_assoc. repeat split; try reflexivity. discriminate. }
  destruct (size <? 0) eqn:Eneg.
  { eexists. rewrite <- !app_assoc. repeat split; try reflexivity. discriminate. }
  eexists. rewrite <- !app_assoc. split; [reflexivity|]. split; [reflexivity|].
  intros body sz H. simpl in H. injection H as <- <-.
  apply Z.eqb_neq in Emax. apply Z.ltb_ge in Eneg. apply Z.eqb_eq in Er.
  assert (Hs : to_size_t size = size).
  { unfold to_size_t, LONG_MAX in *. apply Z.mod_small. lia. }
  rewrite Hs in *. rewrite Er.
  assert (Hlen : length (firstn (Z.to_nat size) (f_avail f)) = Z.to_nat size).
  { apply firstn_length_le. lia. }
  exists f. repeat split; try lia.
  - unfold strlen. rewrite Hlen. lia.
  - now rewrite Hlen.
Qed.

(* ================================================================== *)
(** ** [sscanf] and the white-space separated tokens *)

Lemma span_word_app (s : cstr) : fst (span_word s) ++ snd (span_word s) = s.
Proof.
  induction s as [|c s IH]; simpl; [reflexivity|].
  destruct (isspace c); [reflexivity|].
  destruct (span_word s) as [w r]. simpl in *. now f_equal.
Qed.

Lemma span_word_word (s : cstr) :
  word (fst (span_word s)) /\ ends_word (snd (span_word s)).
Proof.
  induction s as [|c s IH]; simpl.
  - split; [constructor | exact I].
  - destruct (isspace c) eqn:E; simpl.
    + split; [constructor | exact E].
    + destruct (span_word s) as [w r]. simpl in *.
      split; [constructor; tauto | tauto].
Qed.

Lemma span_word_of_word (w r : cstr) :
  word w -> ends_word r -> span_word (w ++ r) = (w, r).
Proof.
  intros Hw Hr. induction Hw as [|c w Hc Hw IH]; simpl.
  - destruct r as [|c r]; [reflexivity|]. simpl in *. now rewrite Hr.
  - now rewrite Hc, IH.
Qed.

Lemma ws_tokens_from_word (s cur : cstr) :
  cur <> [] ->
  ws_tokens_from cur s =
  (cur ++ fst (span_word s)) :: ws_tokens_from [] (snd (span_word s)).
Proof.
  revert cur; induction s as [|c s IH]; intros cur Hc; simpl.
  - destruct cur; [contradiction|]. now rewrite app_nil_r.
  - destruct (isspace c) eqn:E; simpl.
    + rewrite E, app_nil_r. destruct cur; [contradiction|reflexivity].
    + rewrite IH by (destruct cur; discriminate).
      destruct (span_word s) as [w r]. simpl. now rewrite <- app_assoc.
Qed.

Lemma ws_tokens_skip_ws (s : cstr) : ws_tokens (skip_ws s) = ws_tokens s.
Proof.
  unfold ws_tokens. induction s as [|c s IH]; simpl; [reflexivity|].
  destruct (isspace c) eqn:E; [exact IH|]. simpl. now rewrite E.
Qed.

Lemma skip_ws_head (s : cstr) (c : ascii) (r : cstr) :
  skip_ws s = c :: r -> isspace c = false.
Proof.
  induction s as [|x s IH]; simpl; [discriminate|].
  destruct (isspace x) eqn:E; [exact IH|]. congruence.
Qed.

Lemma skip_ws_idem (s : cstr) : skip_ws (skip_ws s) = skip_ws s.
Proof.
  induction s as [|x s IH]; simpl; [reflexivity|].
  destruct (isspace x) eqn:E; [exact IH|]. simpl. now rewrite E.
Qed.

Lemma take_token_span (n : nat) (s : cstr) :
  take_token n s =
  (firstn n (fst (span_word s)),
   skipn n (fst (span_word s)) ++ snd (span_word s)).
Proof.
  revert s; induction n as [|n IH]; intros s.
  - destruct s; simpl; [reflexivity|]. f_equal.
    symmetry. apply (span_word_app (a :: s)).
  - destruct s as [|c s]; simpl; [reflexivity|].
    destruct (isspace c); [reflexivity|].
    rewrite IH. destruct (span_word s) as [w r]. reflexivity.
Qed.

(** [%<n>s] either meets the end of the input, where there is no token
    left, or stores the first [n] characters of the first token. *)
Lemma scan_s_tokens (n : nat) (s : cstr) :
  (ws_tokens s = [] /\ scan_s n s = None) \/
  (exists w r,
      w <> [] /\ word w /\ ends_word r /\
      ws_tokens s = w :: ws_tokens r /\
      scan_s n s = Some (firstn n w, skipn n w ++ r)).
Proof.
  unfold scan_s. rewrite <- (ws_tokens_skip_ws s).
  destruct (skip_ws s) as [|c s'] eqn:E; [left; split; reflexivity|].
  right. pose proof (skip_ws_head _ _ _ E) as Hc.
  exists (fst (span_word (c :: s'))), (snd (span_word (c :: s'))).
  destruct (span_word_word (c :: s')) as [Hw Hr].
  repeat split; try assumption.
  - simpl. rewrite Hc. destruct (span_word s'). discriminate.
  - unfold ws_tokens at 1. simpl ws_tokens_from. rewrite Hc.
    rewrite ws_tokens_from_word by discriminate.
    simpl span_word. rewrite Hc. destruct (span_word s'); reflexivity.
  - now rewrite take_token_span.
Qed.

Lemma ws_tokens_word (w r : cstr) :
  w <> [] -> word w -> ends_word r -> ws_tokens (w ++ r) = w :: ws_tokens r.
Proof.
  intros Hne Hw Hr. destruct w as [|c w]; [contradiction|].
  inversion Hw as [|? ? Hc Hw']; subst.
  unfold ws_tokens. simpl. rewrite Hc.
  rewrite ws_tokens_from_word by discriminate.
  now rewrite (span_word_of_word w r Hw' Hr).
Qed.

Lemma scan_s_skip_ws (n : nat) (s : cstr) : scan_s n (skip_ws s) = scan_s n s.
Proof.
  unfold scan_s. now rewrite skip_ws_idem.
Qed.

(** With fewer than three tokens, none of which overflows its field, the
    three conversions cannot all succeed. *)
Lemma sscanf_request_short (s : cstr) :
  short_of_three_tokens s -> fst (sscanf_request s) <> 3.
Proof.
  unfold short_of_three_tokens, sscanf_request. intros H.
  destruct (scan_s_tokens 7 s) as [[T1 ->] | (w1 & r1 & _ & _ & _ & T1 & ->)];
    [simpl; unfold EOF; lia|].
  rewrite T1 in H.
  assert (L1 : (length w1 <= 7)%nat).
  { destruct (ws_tokens r1) as [|? [|? ?]]; tauto. }
  rewrite skipn_all2 by exact L1. simpl app. rewrite scan_s_skip_ws.
  destruct (scan_s_tokens 255 r1) as [[T2 ->] | (w2 & r2 & _ & _ & _ & T2 & ->)];
    [simpl; lia|].
  rewrite T2 in H.
  assert (L2 : (length w2 <= 255)%nat).
  { destruct (ws_tokens r2); tauto. }
  rewrite skipn_all2 by exact L2. simpl app. rewrite scan_s_skip_ws.
  destruct (ws_tokens r2) eqn:T3; [|contradiction].
  destruct (scan_s_tokens 15 r2) as [[_ ->] | (w3 & r3 & _ & _ & _ & T3' & _)];
    [simpl; lia | congruence].
Qed.

(** A second token too long for its field is split: its first 255
    characters become the target, up to 15 of the next ones the protocol. *)
Lemma sscanf_request_long_target (s : cstr) (w1 w2 : cstr) (more : list cstr) :
  ws_tokens s = w1 :: w2 :: more ->
  (length w1 <= 7)%nat ->
  (255 < length w2)%nat ->
  sscanf_request s = (3, (w1, firstn 255 w2, firstn 15 (skipn 255 w2))).
Proof.
  intros T L1 L2. unfold sscanf_request.
  destruct (scan_s_tokens 7 s) as [[T1 _] | (v1 & r1 & _ & _ & _ & T1 & ->)];
    [congruence|].
  rewrite T in T1. injection T1 as <- T1.
  rewrite skipn_all2, firstn_all2 by exact L1. simpl app. rewrite scan_s_skip_ws.
  destruct (scan_s_tokens 255 r1) as [[T2 _] | (v2 & r2 & _ & Hw2 & Hr2 & T2 & ->)];
    [congruence|].
  rewrite <- T1 in T2. injection T2 as <- T2.
  rewrite scan_s_skip_ws.
  assert (Hne : skipn 255 w2 <> []).
  { intros E. apply (f_equal (@length ascii)) in E.
    rewrite length_skipn in E. simpl in E. lia. }
  assert (Hw : word (skipn 255 w2)).
  { unfold word in *. rewrite <- (firstn_skipn 255 w2) in Hw2.
    apply Forall_app in Hw2. tauto. }
  unfold scan_s.
  destruct (skipn 255 w2) as [|c rest] eqn:Es; [contradiction|].
  inversion Hw as [|? ? Hc Hrest]; subst.
  simpl app. simpl skip_ws. rewrite Hc.
  rewrite take_token_span.
  change (c :: rest ++ r2) with ((c :: rest) ++ r2).
  rewrite (span_word_of_word (c :: rest) r2 Hw Hr2). reflexivity.
Qed.

(* ================================================================== *)
(** ** The success path and the shape of every conversation *)

Lemma sends_app (a b : list event) : sends (a ++ b) = sends a ++ sends b.
Proof.
  induction a as [|e a IH]; simpl; [reflexivity|].
  destruct e; simpl; now rewrite ?IH.
Qed.

Lemma ok_header_fits (real_path : cstr) (file_size : Z) :
  snprintf 512
    (header_format (lit "200 OK") (get_content_type real_path) file_size) =
  (header_format (lit "200 OK") (get_content_type real_path) file_size,
   strlen (header_format (lit "200 OK") (get_content_type real_path) file_size)).
Proof.
  apply snprintf_fits. rewrite length_header_format.
  pose proof (length_get_content_type real_path).
  pose proof (length_print_dec file_size).
  unfold lit. simpl. lia.
Qed.

Section Served.

Variable os : OS.
Variable root_dir method path : cstr.
Variable tr : list event.

Hypothesis no_dots : strstr (strip_query path) (lit "..") = false.
Hypothesis is_get : method = lit "GET".

Let requested : cstr := requested_path_of root_dir (strip_query path).

Variable real_requested : cstr.
Hypothesis resolved : os_realpath os requested = Some real_requested.

Lemma request_root_unresolved :
  os_realpath os root_dir = None ->
  handle_request os root_dir method path tr =
  (tt, tr ++ [ERealpath requested; ERealpath root_dir; EUndefined]).
Proof.
  intros H. unfold handle_request. rewrite no_dots, is_get, strcmp_refl.
  change (0 =? 0) with true. run_step. fold requested.
  rewrite resolved, H. now rewrite <- !app_assoc.
Qed.

Variable real_root : cstr.
Hypothesis root_resolved : os_realpath os root_dir = Some real_root.
Hypothesis inside : starts_with real_root real_requested = true.

Let resolving : list event := tr ++ [ERealpath requested; ERealpath root_dir].

Lemma request_load_failed (loading : list event) :
  read_file os real_requested resolving = (LoadNull, loading) ->
  handle_request os root_dir method path tr =
  (tt, loading ++ error_response 404 (lit "File not found") ++ [EClose]).
Proof.
  intros H.
  rewrite (request_contained os root_dir method path tr no_dots is_get
             real_requested real_root resolved root_resolved inside).
  fold requested. fold resolving. unfold bind at 1. rewrite H. run_step.
  rewrite send_error_run by message_fits. now rewrite <- !app_assoc.
Qed.

Lemma request_load_undefined (loading : list event) :
  read_file os real_requested resolving = (LoadUndefined, loading) ->
  handle_request os root_dir method path tr = (tt, loading ++ [EUndefined]).
Proof.
  intros H.
  rewrite (request_contained os root_dir method path tr no_dots is_get
             real_requested real_root resolved root_resolved inside).
  fold requested. fold resolving. unfold bind at 1. rewrite H. reflexivity.
Qed.

(** The file is loaded: header and body are handed to [send]; only the
    value the body [send] returns decides whether a 500 response follows. *)
Lemma request_served (loading : list event) (body : list ascii) :
  read_file os real_requested resolving = (Loaded body (strlen body), loading) ->
  handle_request os root_dir method path tr =
  (tt, loading ++
       [ESend (ok_header real_requested body); ESend body] ++
       (if os_send os (S (count_sends loading)) body =? -1
        then error_response 500 send_failure else []) ++
       [EFree; EClose]).
Proof.
  intros H.
  rewrite (request_contained os root_dir method path tr no_dots is_get
             real_requested real_root resolved root_resolved inside).
  fold requested. fold resolving. unfold bind at 1. rewrite H.
  cbv zeta. rewrite ok_header_fits. run_step.
  rewrite !send_run. fold (ok_header real_requested body).
  rewrite count_sends_app.
  change (count_sends [ESend (ok_header real_requested body)]) with 1%nat.
  replace (count_sends loading + 1)%nat with (S (count_sends loading)) by lia.
  destruct (os_send os (S (count_sends loading)) body =? -1).
  - rewrite send_error_run by message_fits. unfold send_failure.
    now rewrite <- !app_assoc.
  - now rewrite <- !app_assoc.
Qed.

End Served.

Lemma sends_error_response (code : Z) (message : cstr) :
  sends (error_response code message) =
  [ header_format (print_dec code ++ lit " " ++ status_text code)
      (lit "application/json") (strlen (error_body message));
    error_body message ].
Proof. reflexivity. Qed.

Ltac sends_norm :=
  cbn [snd]; rewrite ?sends_app; cbn [sends app]; rewrite ?app_nil_r.

(** Every way through [handle_request] ends in one of the conversations. *)
Lemma handle_request_conversation (os : OS) (root_dir method path : cstr) :
  conversation os root_dir [403; 501; 404]
    (snd (handle_request os root_dir method path []))
    (sends (snd (handle_request os root_dir method path []))).
Proof.
  destruct (strstr (strip_query path) (lit "..")) eqn:Hd.
  { rewrite (request_traversal os root_dir method path [] Hd). sends_norm.
    apply conv_error; [simpl; tauto | message_fits]. }
  destruct (cstr_eq_dec method (lit "GET")) as [Hm|Hm].
  2:{ rewrite (request_not_get os root_dir method path [] Hd Hm). sends_norm.
      apply conv_error; [simpl; tauto | message_fits]. }
  destruct (os_realpath os (requested_path_of root_dir (strip_query path)))
    as [rp|] eqn:Hr.
  2:{ rewrite (request_unresolved os root_dir method path [] Hd Hm Hr).
      sends_norm. apply conv_error; [simpl; tauto | message_fits]. }
  destruct (os_realpath os root_dir) as [rr|] eqn:Hroot.
  2:{ rewrite (request_root_unresolved os root_dir method path [] Hd Hm rp Hr Hroot).
      sends_norm. apply conv_silent. }
  destruct (starts_with rr rp) eqn:Hin.
  2:{ rewrite (request_outside os root_dir method path [] Hd Hm rp rr Hr Hroot Hin).
      sends_norm. apply conv_error; [simpl; tauto | message_fits]. }
  destruct (read_file_inv os rp
              ([] ++ [ERealpath (requested_path_of root_dir (strip_query path));
                      ERealpath root_dir]))
    as (evs & Htr & Hs & Hl).
  destruct (read_file os rp
              ([] ++ [ERealpath (requested_path_of root_dir (strip_query path));
                      ERealpath root_dir]))
    as [l loading] eqn:Hrf.
  cbn [fst snd] in Htr, Hl. subst loading.
  destruct l as [body size| |].
  - destruct (Hl body size eq_refl) as (f & Hf & Hsize & Hrange & Hlen & Hb).
    rewrite <- Hlen in Hrf.
    rewrite (request_served os root_dir method path [] Hd Hm rp Hr rr Hroot Hin
               _ body Hrf).
    sends_norm. rewrite Hs. cbn [app].
    apply conv_ok with (real_root := rr); try assumption.
    + exists rp, f. repeat split; try assumption.
      * cbn [snd app]. right. right. left. reflexivity.
      * congruence.
    + cbn [snd app]. right. right. left. reflexivity.
    + destruct (os_send os _ body =? -1); [right | left]; sends_norm; reflexivity.
  - rewrite (request_load_failed os root_dir method path [] Hd Hm rp Hr rr Hroot Hin
               _ Hrf).
    sends_norm. rewrite Hs. cbn [app].
    apply conv_error; [simpl; tauto | message_fits].
  - rewrite (request_load_undefined os root_dir method path [] Hd Hm rp Hr rr Hroot Hin
               _ Hrf).
    sends_norm. rewrite Hs. apply conv_silent.
Qed.

Lemma conversation_weaken (os : OS) (root_dir : cstr) (codes codes' : list Z)
    (tr : list event) (out : list (list ascii)) :
  incl codes codes' ->
  conversation os root_dir codes tr out ->
  conversation os root_dir codes' tr out.
Proof.
  intros Hi H. destruct H.
  - apply conv_silent.
  - apply conv_error; auto.
  - eapply conv_ok; eassumption.
Qed.

Lemma serve_conversation (os : OS) (root_dir : cstr) (r : recv_result) :
  conversation os root_dir [400; 403; 501; 404]
    (serve os root_dir r) (sends (serve os root_dir r)).
Proof.
  destruct r as [|pending]; [apply conv_silent|].
  destruct (list_eq_dec ascii_dec pending []) as [->|Hne]; [apply conv_silent|].
  destruct (sscanf_request (request_text pending)) as [n [[m p] pr]] eqn:Es.
  destruct (Z.eq_dec n 3) as [->|Hn].
  - unfold serve. rewrite (handle_client_parsed os root_dir _ _ _ _ Es).
    eapply conversation_weaken; [|apply handle_request_conversation].
    intros x Hx. now right.
  - rewrite handle_client_malformed by (try assumption; now rewrite Es).
    sends_norm. apply conv_error; [simpl; tauto | message_fits].
Qed.

(** Once three tokens are stored, no way through the handler sends a 400
    response. *)
Lemma request_never_malformed (os : OS) (root_dir method path : cstr) :
  has_status 400 (snd (handle_request os root_dir method path [])) = false.
Proof.
  unfold has_status.
  pose proof (handle_request_conversation os root_dir method path) as H.
  remember (sends (snd (handle_request os root_dir method path []))) as out
    eqn:Eout. clear Eout.
  destruct H as [|code message Hc Hm|rr rp body tail Hroot Hin Hb Ho Ht].
  - reflexivity.
  - rewrite sends_error_response. simpl in Hc.
    destruct Hc as [<-|[<-|[<-|[]]]]; reflexivity.
  - reflexivity.
Qed.

Lemma strict_descendant_below (root p : cstr) :
  root <> lit "/" ->
  strict_descendant root p = true <->
  exists rest, rest <> [] /\ p = root ++ lit "/" ++ rest.
Proof.
  intros Hroot. unfold strict_descendant.
  destruct (cstr_eq_dec root (lit "/")); [contradiction|].
  rewrite andb_true_iff, starts_with_app, Nat.ltb_lt. split.
  - intros [[rest ->] Hl]. exists rest. rewrite <- app_assoc. split; [|reflexivity].
    intros ->. rewrite app_nil_r, length_app in Hl. simpl in Hl. lia.
  - intros (rest & Hne & ->). split.
    + exists rest. now rewrite <- app_assoc.
    + rewrite !length_app. destruct rest; [contradiction|]. simpl. lia.
Qed.

(* ================================================================== *)
(** ** The properties of the specification *)

(** *** Content type *)

Lemma extension_test (ext known : cstr) :
  (strcmp ("."%char :: ext) ("."%char :: known) =? 0) =
  if cstr_eq_dec ext known then true else false.
Proof.
  change (strcmp ("."%char :: ext) ("."%char :: known)) with (strcmp ext known).
  apply strcmp_eqb.
Qed.

(** C7 — [get_content_type] is a total function of the path alone.  A
    path without any [.] has type text/plain; otherwise the extension is
    what follows the rightmost [.] of the whole path, it is looked up in
    the table (html, jpg, jpeg, png, css, js; exact, case-sensitive
    match), and any other extension gives application/octet-stream. *)
Theorem get_content_type_table :
  (forall path : cstr,
      ~ In "."%char path -> get_content_type path = lit "text/plain") /\
  (forall stem ext : cstr,
      ~ In "."%char ext ->
      get_content_type (stem ++ "."%char :: ext) = mime_of_extension ext) /\
  mime_table =
    [ (lit "html", lit "text/html"); (lit "jpg", lit "image/jpeg");
      (lit "jpeg", lit "image/jpeg"); (lit "png", lit "image/png");
      (lit "css", lit "text/css"); (lit "js", lit "application/javascript") ] /\
  (forall ext : cstr,
      assoc ext mime_table = None ->
      mime_of_extension ext = lit "application/octet-stream").
Proof.
  split; [|split; [|split]].
  - intros path H. unfold get_content_type. now rewrite strrchr_none.
  - intros stem ext H. unfold get_content_type. rewrite strrchr_last by assumption.
    change (lit ".html") with ("."%char :: lit "html").
    change (lit ".jpg") with ("."%char :: lit "jpg").
    change (lit ".jpeg") with ("."%char :: lit "jpeg").
    change (lit ".png") with ("."%char :: lit "png").
    change (lit ".css") with ("."%char :: lit "css").
    change (lit ".js") with ("."%char :: lit "js").
    rewrite !extension_test.
    unfold mime_of_extension, mime_table, assoc.
    repeat match goal with
           | |- context [cstr_eq_dec ext ?k] => destruct (cstr_eq_dec ext k)
           end; reflexivity.
  - reflexivity.
  - intros ext H. unfold mime_of_extension. now rewrite H.
Qed.

Lemma get_content_type_table_witness :
  ~ In "."%char (lit "JPG") /\
  get_content_type (lit "/srv/www/v1.2/photo" ++ "."%char :: lit "JPG") =
  mime_of_extension (lit "JPG").
Proof.
  assert (H : ~ In "."%char (lit "JPG")).
  { simpl. intros [H|[H|[H|[]]]]; discriminate. }
  split; [exact H|].
  exact (proj1 (proj2 get_content_type_table) (lit "/srv/www/v1.2/photo") (lit "JPG") H).
Defined.

(** *** Parsing the request line *)

(** C4, as amended — a received buffer that is not empty and in which the
    whole text up to the first NUL (not only its first line) has fewer
    than three white-space separated tokens, the first of at most 7 and
    the second of at most 255 bytes, is answered with 400 Bad Request and
    the JSON body [{"error": "Malformed request"}]; nothing else is done
    but closing the connection. *)
Theorem malformed_request_rejected (os : OS) (root_dir : cstr)
    (pending : list ascii) :
  pending <> [] ->
  short_of_three_tokens (request_text pending) ->
  serve os root_dir (RecvData pending) =
  [ ESend (lit "HTTP/1.0 400 Bad Request" ++ CRLF ++
           lit "Content-Type: application/json" ++ CRLF ++
           lit "Content-Length: 30" ++ CRLF ++ CRLF);
    ESend (lit "{" ++ [DQUOTE] ++ lit "error" ++ [DQUOTE] ++ lit ": " ++
           [DQUOTE] ++ lit "Malformed request" ++ [DQUOTE] ++ lit "}");
    EClose ].
Proof.
  intros Hne H. rewrite handle_client_malformed.
  - reflexivity.
  - assumption.
  - now apply sscanf_request_short.
Qed.

Lemma malformed_request_rejected_witness :
  serve (site []) www (RecvData (lit "GET" ++ CRLF)) =
  [ ESend (lit "HTTP/1.0 400 Bad Request" ++ CRLF ++
           lit "Content-Type: application/json" ++ CRLF ++
           lit "Content-Length: 30" ++ CRLF ++ CRLF);
    ESend (lit "{" ++ [DQUOTE] ++ lit "error" ++ [DQUOTE] ++ lit ": " ++
           [DQUOTE] ++ lit "Malformed request" ++ [DQUOTE] ++ lit "}");
    EClose ].
Proof.
  apply (malformed_request_rejected (site []) www (lit "GET" ++ CRLF)).
  - discriminate.
  - vm_compute. lia.
Defined.

(** C4, as stated, fails: the first line of this buffer holds the single
    token [GET], yet [sscanf] takes the other two tokens from the next
    line and the request is not answered with 400 (it goes on to a 404). *)
Lemma one_token_line_not_rejected :
  let pending := lit "GET" ++ CRLF ++ lit "Host: a" ++ CRLF ++ CRLF in
  ws_tokens (first_line (request_text pending)) = [lit "GET"] /\
  sscanf_request (request_text pending) = (3, (lit "GET", lit "Host:", lit "a")) /\
  has_status 400 (serve (site []) www (RecvData pending)) = false /\
  has_status 404 (serve (site []) www (RecvData pending)) = true.
Proof.
  vm_compute. repeat split.
Qed.

(** C10, as amended — when the first token has at most 7 bytes and the
    second more than 255, the request is not malformed: [sscanf] stores
    three tokens, the target is the first 255 bytes of the second token,
    the protocol is made of the bytes that follow, but only up to the
    first 15 of them, and the handler goes on with the truncated target. *)
Theorem long_target_truncated (os : OS) (root_dir : cstr)
    (pending : list ascii) (w1 w2 : cstr) (more : list cstr) :
  ws_tokens (request_text pending) = w1 :: w2 :: more ->
  (length w1 <= 7)%nat ->
  (255 < length w2)%nat ->
  sscanf_request (request_text pending) =
    (3, (w1, firstn 255 w2, firstn 15 (skipn 255 w2))) /\
  firstn 15 (skipn 255 w2) <> [] /\
  handle_client os root_dir (RecvData pending) =
    handle_request os root_dir w1 (firstn 255 w2) /\
  has_status 400 (serve os root_dir (RecvData pending)) = false.
Proof.
  intros T L1 L2.
  pose proof (sscanf_request_long_target _ _ _ _ T L1 L2) as E.
  split; [exact E|]. split; [|split].
  - intros N. apply (f_equal (@length ascii)) in N.
    rewrite length_firstn, length_skipn in N.
    change (length (@nil ascii)) with 0%nat in N. lia.
  - exact (handle_client_parsed os root_dir _ _ _ _ E).
  - unfold serve. rewrite (handle_client_parsed os root_dir _ _ _ _ E).
    apply (request_never_malformed os root_dir).
Qed.

Lemma long_target_truncated_witness :
  sscanf_request (request_text long_request) =
    (3, (lit "GET", firstn 255 long_target, firstn 15 (skipn 255 long_target))) /\
  firstn 15 (skipn 255 long_target) <> [] /\
  handle_client (site []) www (RecvData long_request) =
    handle_request (site []) www (lit "GET") (firstn 255 long_target) /\
  has_status 400 (serve (site []) www (RecvData long_request)) = false.
Proof.
  apply (long_target_truncated (site []) www long_request
           (lit "GET") long_target [lit "HTTP/1.0"]).
  - vm_compute. reflexivity.
  - vm_compute. lia.
  - vm_compute. lia.
Defined.

(** C10, as stated, fails: of the 16 bytes that remain of this 271-byte
    target only 15 are consumed as the protocol token. *)
Lemma long_target_protocol_cut :
  ws_tokens (request_text long_request) =
    [lit "GET"; long_target; lit "HTTP/1.0"] /\
  length long_target = 271%nat /\
  fst (sscanf_request (request_text long_request)) = 3 /\
  snd (snd (sscanf_request (request_text long_request))) <>
    skipn 255 long_target /\
  length (snd (snd (sscanf_request (request_text long_request)))) = 15%nat /\
  length (skipn 255 long_target) = 16%nat.
Proof.
  vm_compute. repeat split. discriminate.
Qed.

(** *** Rejections before the file system is consulted *)

(** C2, as amended — whenever [sscanf] stores three tokens and the target,
    once everything from its first [?] or [#] is cut off, contains [..],
    the handler sends the 403 response "Forbidden path traversal" and
    closes: whatever the method and whatever the files, and without any
    call to the file system (the trace holds the two sends and the close
    only). *)
Theorem traversal_forbidden (os : OS) (root_dir : cstr)
    (pending : list ascii) (method path protocol : cstr) :
  sscanf_request (request_text pending) = (3, (method, path, protocol)) ->
  strstr (strip_query path) (lit "..") = true ->
  serve os root_dir (RecvData pending) =
  [ ESend (lit "HTTP/1.0 403 Forbidden" ++ CRLF ++
           lit "Content-Type: application/json" ++ CRLF ++
           lit "Content-Length: 37" ++ CRLF ++ CRLF);
    ESend (lit "{" ++ [DQUOTE] ++ lit "error" ++ [DQUOTE] ++ lit ": " ++
           [DQUOTE] ++ lit "Forbidden path traversal" ++ [DQUOTE] ++ lit "}");
    EClose ].
Proof.
  intros Hs Hd. unfold serve.
  rewrite (handle_client_parsed os root_dir _ _ _ _ Hs).
  rewrite (request_traversal os root_dir method path [] Hd). reflexivity.
Qed.

Lemma traversal_forbidden_witness :
  serve (site []) www (request "GET /../etc/passwd HTTP/1.0") =
  [ ESend (lit "HTTP/1.0 403 Forbidden" ++ CRLF ++
           lit "Content-Type: application/json" ++ CRLF ++
           lit "Content-Length: 37" ++ CRLF ++ CRLF);
    ESend (lit "{" ++ [DQUOTE] ++ lit "error" ++ [DQUOTE] ++ lit ": " ++
           [DQUOTE] ++ lit "Forbidden path traversal" ++ [DQUOTE] ++ lit "}");
    EClose ].
Proof.
  apply (traversal_forbidden (site []) www
           (lit "GET /../etc/passwd HTTP/1.0" ++ CRLF ++ CRLF)
           (lit "GET") (lit "/../etc/passwd") (lit "HTTP/1.0")).
  - vm_compute. reflexivity.
  - vm_compute. reflexivity.
Defined.

(** C2, as stated, fails: this target contains [..], but only in its
    query string, which is cut off before the check; the file is served. *)
Lemma traversal_in_query_served :
  let pending := lit "GET /index.html?v=.. HTTP/1.0" ++ CRLF ++ CRLF in
  sscanf_request (request_text pending) =
    (3, (lit "GET", lit "/index.html?v=..", lit "HTTP/1.0")) /\
  strstr (lit "/index.html?v=..") (lit "..") = true /\
  has_status 403 (serve (site []) www (RecvData pending)) = false /\
  has_status 200 (serve (site []) www (RecvData pending)) = true.
Proof.
  vm_compute. repeat split.
Qed.

(** C3, as amended — whenever [sscanf] stores three tokens, the stripped
    target does not contain [..] and the method is not exactly [GET], the
    handler sends status 501 with the generic reason phrase "Error" and
    the JSON body [{"error": "Only GET is supported"}], and closes. *)
Theorem other_method_not_implemented (os : OS) (root_dir : cstr)
    (pending : list ascii) (method path protocol : cstr) :
  sscanf_request (request_text pending) = (3, (method, path, protocol)) ->
  strstr (strip_query path) (lit "..") = false ->
  method <> lit "GET" ->
  serve os root_dir (RecvData pending) =
  [ ESend (lit "HTTP/1.0 501 Error" ++ CRLF ++
           lit "Content-Type: application/json" ++ CRLF ++
           lit "Content-Length: 34" ++ CRLF ++ CRLF);
    ESend (lit "{" ++ [DQUOTE] ++ lit "error" ++ [DQUOTE] ++ lit ": " ++
           [DQUOTE] ++ lit "Only GET is supported" ++ [DQUOTE] ++ lit "}");
    EClose ].
Proof.
  intros Hs Hd Hm. unfold serve.
  rewrite (handle_client_parsed os root_dir _ _ _ _ Hs).
  rewrite (request_not_get os root_dir method path [] Hd Hm). reflexivity.
Qed.

Lemma other_method_not_implemented_witness :
  serve (site []) www (request "HEAD /index.html HTTP/1.0") =
  [ ESend (lit "HTTP/1.0 501 Error" ++ CRLF ++
           lit "Content-Type: application/json" ++ CRLF ++
           lit "Content-Length: 34" ++ CRLF ++ CRLF);
    ESend (lit "{" ++ [DQUOTE] ++ lit "error" ++ [DQUOTE] ++ lit ": " ++
           [DQUOTE] ++ lit "Only GET is supported" ++ [DQUOTE] ++ lit "}");
    EClose ].
Proof.
  apply (other_method_not_implemented (site []) www
           (lit "HEAD /index.html HTTP/1.0" ++ CRLF ++ CRLF)
           (lit "HEAD") (lit "/index.html") (lit "HTTP/1.0")).
  - vm_compute. reflexivity.
  - vm_compute. reflexivity.
  - discriminate.
Defined.

(** C3, as stated, fails: the traversal check comes before the method
    check, so this well-formed POST request is answered with 403. *)
Lemma post_with_dots_forbidden :
  let pending := lit "POST /../etc/passwd HTTP/1.0" ++ CRLF ++ CRLF in
  sscanf_request (request_text pending) =
    (3, (lit "POST", lit "/../etc/passwd", lit "HTTP/1.0")) /\
  lit "POST" <> lit "GET" /\
  has_status 501 (serve (site []) www (RecvData pending)) = false /\
  has_status 403 (serve (site []) www (RecvData pending)) = true.
Proof.
  vm_compute. repeat split. discriminate.
Qed.

(** *** Loading the file *)

(** C8, as amended — for a well-formed GET request whose stripped target
    has no [..]: if the candidate path cannot be canonicalized, the
    response is 404 "File not found"; and if it canonicalizes to a path
    that has the canonical root as a prefix, the response is 404 "File not
    found" as well when the file cannot be opened or when fewer bytes are
    read than the size found, in which case the buffer is freed before the
    response and no body of the file is sent. *)
Theorem load_failure_not_found (os : OS) (root_dir : cstr)
    (pending : list ascii) (path protocol : cstr) :
  sscanf_request (request_text pending) = (3, (lit "GET", path, protocol)) ->
  strstr (strip_query path) (lit "..") = false ->
  let requested := requested_path_of root_dir (strip_query path) in
  let not_found := error_response 404 (lit "File not found") in
  (os_realpath os requested = None ->
   serve os root_dir (RecvData pending) =
   [ERealpath requested] ++ not_found ++ [EClose]) /\
  (forall real_requested real_root : cstr,
      os_realpath os requested = Some real_requested ->
      os_realpath os root_dir = Some real_root ->
      starts_with real_root real_requested = true ->
      (os_fopen os real_requested = None ->
       serve os root_dir (RecvData pending) =
       [ERealpath requested; ERealpath root_dir; EFopen real_requested] ++
       not_found ++ [EClose]) /\
      (forall f : file,
          os_fopen os real_requested = Some f ->
          0 <= f_tell f < LONG_MAX ->
          os_malloc os (f_tell f + 1) = true ->
          Z.of_nat (length (f_avail f)) < f_tell f ->
          serve os root_dir (RecvData pending) =
          [ERealpath requested; ERealpath root_dir; EFopen real_requested;
           EMalloc (f_tell f + 1); EFread (f_tell f); EFclose; EFree] ++
          not_found ++ [EClose])).
Proof.
  intros Hs Hd requested not_found. unfold serve.
  rewrite (handle_client_parsed os root_dir _ _ _ _ Hs). split.
  - intros Hr.
    now rewrite (request_unresolved os root_dir _ path [] Hd eq_refl Hr).
  - intros rp rr Hr Hroot Hin. split.
    + intros Ho.
      rewrite (request_load_failed os root_dir _ path [] Hd eq_refl rp Hr rr Hroot Hin
                 _ (read_file_not_opened os rp _ Ho)).
      reflexivity.
    + intros f Ho Hsize Hm Hshort.
      rewrite (request_load_failed os root_dir _ path [] Hd eq_refl rp Hr rr Hroot Hin
                 _ (read_file_short os rp _ f Ho Hsize Hm Hshort)).
      reflexivity.
Qed.

Lemma load_failure_not_found_witness :
  serve (site []) www (request "GET /short.txt HTTP/1.0") =
  [ ERealpath (lit "/srv/www/short.txt"); ERealpath www;
    EFopen (lit "/srv/www/short.txt"); EMalloc 11; EFread 10; EFclose; EFree ] ++
  error_response 404 (lit "File not found") ++ [EClose].
Proof.
  refine (proj2 (proj2 (load_failure_not_found (site []) www
            (lit "GET /short.txt HTTP/1.0" ++ CRLF ++ CRLF)
            (lit "/short.txt") (lit "HTTP/1.0") _ _)
            (lit "/srv/www/short.txt") www _ _ _)
            {| f_tell := 10; f_avail := lit "1234" |} _ _ _ _).
  - vm_compute. reflexivity.
  - vm_compute. reflexivity.
  - vm_compute. reflexivity.
  - vm_compute. reflexivity.
  - vm_compute. reflexivity.
  - vm_compute. reflexivity.
  - unfold LONG_MAX. simpl. lia.
  - reflexivity.
  - simpl. lia.
Defined.

(** C8, as stated, fails: [/out] is a well-formed GET target without
    [..] whose file cannot be opened, but the file resolves outside the
    root and the containment check answers first, with 403. *)
Lemma unreadable_outside_forbidden :
  let pending := lit "GET /out HTTP/1.0" ++ CRLF ++ CRLF in
  sscanf_request (request_text pending) =
    (3, (lit "GET", lit "/out", lit "HTTP/1.0")) /\
  strstr (strip_query (lit "/out")) (lit "..") = false /\
  os_realpath (site []) (requested_path_of www (strip_query (lit "/out"))) =
    Some (lit "/etc/shadow") /\
  os_fopen (site []) (lit "/etc/shadow") = None /\
  has_status 404 (serve (site []) www (RecvData pending)) = false /\
  serve (site []) www (RecvData pending) =
    [ERealpath (lit "/srv/www/out"); ERealpath www] ++
    error_response 403 (lit "Forbidden path") ++ [EClose].
Proof.
  vm_compute. repeat split.
Qed.

(** *** Sending the file *)

(** C9 — on the success path (the file is loaded) the handler hands the
    header block and then the body to [send], and the 500 response
    "Failed to send response body" follows exactly when the body [send],
    the second of the connection, returns -1.  What the header [send]
    returns is not looked at, and a body [send] that returns a smaller
    count than the file size is not treated as a failure. *)
Theorem body_send_decides (os : OS) (root_dir : cstr)
    (pending : list ascii) (path protocol real_requested real_root : cstr)
    (f : file) :
  sscanf_request (request_text pending) = (3, (lit "GET", path, protocol)) ->
  strstr (strip_query path) (lit "..") = false ->
  let requested := requested_path_of root_dir (strip_query path) in
  os_realpath os requested = Some real_requested ->
  os_realpath os root_dir = Some real_root ->
  starts_with real_root real_requested = true ->
  os_fopen os real_requested = Some f ->
  0 <= f_tell f < LONG_MAX ->
  os_malloc os (f_tell f + 1) = true ->
  f_tell f <= Z.of_nat (length (f_avail f)) ->
  let body := firstn (Z.to_nat (f_tell f)) (f_avail f) in
  serve os root_dir (RecvData pending) =
  [ERealpath requested; ERealpath root_dir; EFopen real_requested;
   EMalloc (f_tell f + 1); EFread (f_tell f); EFclose;
   ESend (ok_header real_requested body); ESend body] ++
  (if os_send os 1 body =? -1
   then error_response 500 (lit "Failed to send response body")
   else []) ++
  [EFree; EClose].
Proof.
  intros Hs Hd requested Hr Hroot Hin Ho Hsize Hm Hfull body. unfold serve.
  rewrite (handle_client_parsed os root_dir _ _ _ _ Hs).
  pose proof (read_file_full os real_requested
                ([] ++ [ERealpath requested; ERealpath root_dir])
                f Ho Hsize Hm Hfull) as Hrf.
  fold body in Hrf.
  assert (Hlen : strlen body = f_tell f).
  { unfold strlen, body. rewrite firstn_length_le by lia. lia. }
  assert (Hrf' :
    read_file os real_requested
      ([] ++ [ERealpath requested; ERealpath root_dir]) =
    (Loaded body (strlen body),
     [ERealpath requested; ERealpath root_dir; EFopen real_requested;
      EMalloc (f_tell f + 1); EFread (f_tell f); EFclose])).
  { rewrite Hlen. exact Hrf. }
  rewrite (request_served os root_dir _ path [] Hd eq_refl real_requested Hr
             real_root Hroot Hin _ body Hrf').
  reflexivity.
Qed.

Lemma body_send_decides_witness :
  serve (site [1%nat]) www (request "GET /style.css?v=2 HTTP/1.0") =
  [ERealpath (lit "/srv/www/style.css"); ERealpath www;
   EFopen (lit "/srv/www/style.css"); EMalloc 16; EFread 15; EFclose;
   ESend (ok_header (lit "/srv/www/style.css") (lit "body{margin:0}" ++ [LF]));
   ESend (lit "body{margin:0}" ++ [LF])] ++
  error_response 500 (lit "Failed to send response body") ++
  [EFree; EClose].
Proof.
  refine (body_send_decides (site [1%nat]) www
            (lit "GET /style.css?v=2 HTTP/1.0" ++ CRLF ++ CRLF)
            (lit "/style.css?v=2") (lit "HTTP/1.0")
            (lit "/srv/www/style.css") www
            {| f_tell := 15; f_avail := lit "body{margin:0}" ++ [LF] |}
            _ _ _ _ _ _ _ _ _).
  - vm_compute. reflexivity.
  - vm_compute. reflexivity.
  - vm_compute. reflexivity.
  - vm_compute. reflexivity.
  - vm_compute. reflexivity.
  - vm_compute. reflexivity.
  - unfold LONG_MAX. simpl. lia.
  - reflexivity.
  - simpl. lia.
Defined.

(** *** Framing *)

Lemma frames_any (status content_type : cstr) (b : list ascii) :
  strlen b < 2 ^ 64 ->
  frames (header_format status content_type (strlen b)) b.
Proof.
  intros H. split.
  - now exists status, content_type.
  - apply dec_value_print_dec. unfold strlen in *. lia.
Qed.

Lemma frames_error (code : Z) (message : cstr) :
  (length message <= 200)%nat ->
  Forall (fun hb => frames (fst hb) (snd hb))
    (responses (sends (error_response code message))).
Proof.
  intros H. rewrite sends_error_response. cbn [responses].
  constructor; [|constructor]. cbn [fst snd].
  apply frames_any. unfold strlen. rewrite length_error_body. lia.
Qed.

Lemma error_header_not_ok (code : Z) (message : cstr) :
  In code [400; 403; 501; 404; 500] ->
  is_ok (header_format (print_dec code ++ lit " " ++ status_text code)
           (lit "application/json") (strlen (error_body message))) = false.
Proof.
  intros H. simpl in H.
  destruct H as [<-|[<-|[<-|[<-|[<-|[]]]]]]; reflexivity.
Qed.

Lemma body_of_opened_file_bound (os : OS) (tr : list event) (b : list ascii) :
  body_of_opened_file os tr b -> strlen b < 2 ^ 64.
Proof.
  intros (p & f & _ & _ & H & _). rewrite H.
  pose proof (long_of_range (f_tell f)). unfold LONG_MAX in *. lia.
Qed.

(** C5 — the byte strings a connection hands to [send] are header/body
    pairs; in each pair (success and error alike) the header block ends
    with the field [Content-Length: n], an empty line and nothing else,
    where [n] is the decimal numeral of the exact length of the body that
    follows; and the body of a 200 response is, byte for byte, what
    [fread] delivered from the file that was opened. *)
Theorem responses_framed (os : OS) (root_dir : cstr) (r : recv_result) :
  let tr := serve os root_dir r in
  Nat.even (length (sends tr)) = true /\
  Forall (fun hb =>
            frames (fst hb) (snd hb) /\
            (is_ok (fst hb) = true -> body_of_opened_file os tr (snd hb)))
    (responses (sends tr)).
Proof.
  intros tr. pose proof (serve_conversation os root_dir r) as H. fold tr in H.
  remember (sends tr) as out eqn:Eout. clear Eout.
  destruct H as [|code message Hc Hm|rr rp body tail Hroot Hin Hb Ho Ht].
  - split; [reflexivity | constructor].
  - split; [reflexivity|].
    pose proof (frames_error code message Hm) as Hf.
    rewrite sends_error_response in *. cbn [responses] in *.
    inversion Hf as [|? ? Hf1 _]; subst.
    constructor; [|constructor]. split; [exact Hf1|].
    cbn [fst]. rewrite error_header_not_ok; [discriminate|].
    simpl in *. tauto.
  - assert (Hframe : frames (ok_header rp body) body).
    { apply frames_any. eapply body_of_opened_file_bound; eassumption. }
    destruct Ht as [->| ->].
    + split; [reflexivity|]. cbn [responses].
      constructor; [|constructor]. cbn [fst snd]. split; [exact Hframe | auto].
    + split; [reflexivity|]. rewrite sends_error_response. cbn [responses].
      constructor; [cbn [fst snd]; split; [exact Hframe | auto]|].
      constructor; [|constructor]. cbn [fst snd]. split.
      * apply frames_any. unfold strlen. rewrite length_error_body.
        unfold send_failure, lit. simpl. lia.
      * rewrite error_header_not_ok; [discriminate|]. simpl. tauto.
Qed.

(** *** Containment *)

(** What the containment check does ensure on a run that stays within
    defined behaviour: a 200 response is sent only for a file whose
    canonical path has the canonical root as a prefix. *)
Lemma served_under_prefix (os : OS) (root_dir : cstr) (r : recv_result) :
  count is_undefined (serve os root_dir r) = 0%nat ->
  has_status 200 (serve os root_dir r) = true ->
  exists real_root real_path,
    os_realpath os root_dir = Some real_root /\
    In (EFopen real_path) (serve os root_dir r) /\
    starts_with real_root real_path = true.
Proof.
  intros _. unfold has_status.
  pose proof (serve_conversation os root_dir r) as H.
  remember (sends (serve os root_dir r)) as out eqn:Eout. clear Eout.
  destruct H as [|code message Hc Hm|rr rp body tail Hroot Hin Hb Ho Ht].
  - discriminate.
  - rewrite sends_error_response. intros H. exfalso.
    assert (Hn : is_ok (header_format (print_dec code ++ lit " " ++ status_text code)
                          (lit "application/json") (strlen (error_body message)))
                 = false).
    { apply error_header_not_ok. simpl in *. tauto. }
    unfold is_ok in Hn. change (lit "HTTP/1.0 " ++ print_dec 200 ++ lit " ")
      with (lit "HTTP/1.0 200 ") in H. congruence.
  - intros _. now exists rr, rp.
Qed.

(** And a canonical path that does not have the canonical root as a
    prefix is refused with 403 "Forbidden path". *)
Lemma outside_prefix_forbidden (os : OS) (root_dir : cstr)
    (pending : list ascii) (path protocol real_requested real_root : cstr) :
  sscanf_request (request_text pending) = (3, (lit "GET", path, protocol)) ->
  strstr (strip_query path) (lit "..") = false ->
  os_realpath os (requested_path_of root_dir (strip_query path)) =
    Some real_requested ->
  os_realpath os root_dir = Some real_root ->
  starts_with real_root real_requested = false ->
  serve os root_dir (RecvData pending) =
  [ERealpath (requested_path_of root_dir (strip_query path)); ERealpath root_dir] ++
  error_response 403 (lit "Forbidden path") ++ [EClose].
Proof.
  intros Hs Hd Hr Hroot Hout. unfold serve.
  rewrite (handle_client_parsed os root_dir _ _ _ _ Hs).
  now rewrite (request_outside os root_dir _ path [] Hd eq_refl _ _ Hr Hroot Hout).
Qed.

(** C1 — the code breaks the claim: [/srv/www/leak] is a symbolic link to
    [/srv/www-private/key].  The canonical path of the file is not below
    the canonical root [/srv/www], but it has that string as a prefix, so
    the check of lines 223-229 lets it through and the file is served
    with status 200. *)
Theorem sibling_directory_served :
  os_realpath (site []) www = Some (lit "/srv/www") /\
  os_realpath (site []) (lit "/srv/www/leak") = Some (lit "/srv/www-private/key") /\
  strict_descendant (lit "/srv/www") (lit "/srv/www-private/key") = false /\
  strict_descendant (lit "/srv/www") (lit "/srv/www/index.html") = true /\
  serve (site []) www (request "GET /leak HTTP/1.0") =
  [ ERealpath (lit "/srv/www/leak"); ERealpath (lit "/srv/www");
    EFopen (lit "/srv/www-private/key"); EMalloc 7; EFread 6; EFclose;
    ESend (lit "HTTP/1.0 200 OK" ++ CRLF ++
           lit "Content-Type: text/plain" ++ CRLF ++
           lit "Content-Length: 6" ++ CRLF ++ CRLF);
    ESend (lit "secret");
    EFree; EClose ].
Proof.
  vm_compute. repeat split.
Qed.

(* ================================================================== *)
(** ** Every run of a connection *)

Lemma read_file_runs (os : OS) (p : cstr) (tr : list event) :
  exists l evs,
    read_file os p tr = (l, tr ++ evs) /\ read_file_run os p l evs.
Proof.
  unfold read_file. run_step.
  destruct (os_fopen os p) as [f|] eqn:Ho.
  2:{ exists LoadNull, [EFopen p]. split; [reflexivity | now apply rf_not_opened]. }
  pose proof (long_of_range (f_tell f)) as Hr.
  destruct (long_of (f_tell f) =? LONG_MAX) eqn:Emax.
  { exists LoadUndefined, [EFopen p]. split; [reflexivity | now apply rf_undefined]. }
  apply Z.eqb_neq in Emax.
  destruct (os_malloc os (to_size_t (long_of (f_tell f) + 1))) eqn:Em; run_step.
  2:{ eexists LoadNull, _. rewrite <- !app_assoc. split; [reflexivity|].
      now apply rf_no_memory with (f := f). }
  destruct (to_size_t (long_of (f_tell f) + 1) <?
            Z.min (to_size_t (long_of (f_tell f)))
              (Z.of_nat (length (f_avail f)))) eqn:Eov.
  { eexists LoadUndefined, _. rewrite <- !app_assoc. split; [reflexivity|].
    now apply rf_undefined. }
  destruct (Z.min (to_size_t (long_of (f_tell f)))
              (Z.of_nat (length (f_avail f))) =?
            to_size_t (long_of (f_tell f))) eqn:Er; run_step.
  2:{ eexists LoadNull, _. rewrite <- !app_assoc. split; [reflexivity|].
      apply rf_short with (f := f); try assumption.
      apply Z.eqb_neq in Er. lia. }
  destruct (long_of (f_tell f) <? 0) eqn:Eneg.
  { eexists LoadUndefined, _. rewrite <- !app_assoc. split; [reflexivity|].
    now apply rf_undefined. }
  apply Z.ltb_ge in Eneg. apply Z.eqb_eq in Er.
  assert (Hs : to_size_t (long_of (f_tell f)) = long_of (f_tell f)).
  { unfold to_size_t, LONG_MAX in *. apply Z.mod_small. lia. }
  assert (Ha : to_size_t (long_of (f_tell f) + 1) = long_of (f_tell f) + 1).
  { unfold to_size_t, LONG_MAX in *. apply Z.mod_small. lia. }
  rewrite Hs in *. rewrite Ha in *. rewrite Er.
  eexists (Loaded _ _), _. rewrite <- !app_assoc. split; [reflexivity|].
  apply rf_loaded; try assumption; lia.
Qed.

Section RequestRuns.

Variable os : OS.
Variable root_dir method path : cstr.

Lemma handle_request_runs :
  request_run os root_dir method path
    (snd (handle_request os root_dir method path [])).
Proof.
  destruct (strstr (strip_query path) (lit "..")) eqn:Hd.
  { rewrite (request_traversal os root_dir method path [] Hd).
    now apply rq_traversal. }
  destruct (cstr_eq_dec method (lit "GET")) as [Hm|Hm].
  2:{ rewrite (request_not_get os root_dir method path [] Hd Hm).
      now apply rq_not_get. }
  destruct (os_realpath os (requested_path_of root_dir (strip_query path)))
    as [rp|] eqn:Hr.
  2:{ rewrite (request_unresolved os root_dir method path [] Hd Hm Hr).
      now apply rq_unresolved. }
  destruct (os_realpath os root_dir) as [rr|] eqn:Hroot.
  2:{ rewrite (request_root_unresolved os root_dir method path [] Hd Hm rp Hr Hroot).
      now apply rq_root_unresolved with (real_path := rp). }
  destruct (starts_with rr rp) eqn:Hin.
  2:{ rewrite (request_outside os root_dir method path [] Hd Hm rp rr Hr Hroot Hin).
      now apply rq_outside with (real_path := rp) (real_root := rr). }
  destruct (read_file_runs os rp
              ([] ++ [ERealpath (requested_path_of root_dir (strip_query path));
                      ERealpath root_dir]))
    as (l & evs & Hrf & Hrun).
  pose proof (rq_loading os root_dir method path rp rr l evs Hd Hm Hr Hroot Hin Hrun)
    as Hgoal.
  destruct Hrun as [Ho|f Ho Hmax Hmem|f Ho Hmem Hshort|f Ho Hsize Hmem Hfull|rest Hs].
  - now rewrite (request_load_failed os root_dir method path [] Hd Hm rp Hr rr
                   Hroot Hin _ Hrf).
  - now rewrite (request_load_failed os root_dir method path [] Hd Hm rp Hr rr
                   Hroot Hin _ Hrf).
  - now rewrite (request_load_failed os root_dir method path [] Hd Hm rp Hr rr
                   Hroot Hin _ Hrf).
  - assert (Hlen : strlen (firstn (Z.to_nat (long_of (f_tell f))) (f_avail f)) =
                   long_of (f_tell f)).
    { unfold strlen. rewrite firstn_length_le by lia. lia. }
    rewrite <- Hlen in Hrf at 2.
    now rewrite (request_served os root_dir method path [] Hd Hm rp Hr rr
                   Hroot Hin _ _ Hrf).
  - rewrite (request_load_undefined os root_dir method path [] Hd Hm rp Hr rr
               Hroot Hin _ Hrf).
    cbn [snd]. rewrite <- app_assoc. exact Hgoal.
Qed.

End RequestRuns.

Lemma serve_runs (os : OS) (root_dir : cstr) (r : recv_result) :
  connection_run os root_dir r (serve os root_dir r).
Proof.
  destruct r as [|pending]; [apply cr_error|].
  destruct (list_eq_dec ascii_dec pending []) as [->|Hne]; [apply cr_shutdown|].
  destruct (sscanf_request (request_text pending)) as [n [[m p] pr]] eqn:Es.
  destruct (Z.eq_dec n 3) as [->|Hn].
  - apply cr_request with (method := m) (path := p) (protocol := pr);
      [exact Es|].
    unfold serve. rewrite (handle_client_parsed os root_dir _ _ _ _ Es).
    apply handle_request_runs.
  - rewrite handle_client_malformed by (try assumption; now rewrite Es).
    apply cr_malformed; [assumption | now rewrite Es].
Qed.

(* ================================================================== *)
(** ** Further properties of the code *)

(** *** The request line, field by field *)

Lemma word_skipn (n : nat) (w : cstr) : word w -> word (skipn n w).
Proof.
  unfold word. intros H. rewrite <- (firstn_skipn n w) in H.
  apply Forall_app in H. tauto.
Qed.

Lemma word_firstn (n : nat) (w : cstr) : word w -> word (firstn n w).
Proof.
  unfold word. intros H. rewrite <- (firstn_skipn n w) in H.
  apply Forall_app in H. tauto.
Qed.

(** [%<n>s] on a text does what [next_field] does on its tokens. *)
Lemma scan_s_field (n : nat) (s : cstr) :
  match next_field n (ws_tokens s) with
  | None => scan_s n s = None
  | Some (tok, tokens') =>
      exists r, scan_s n s = Some (tok, r) /\ ws_tokens r = tokens'
  end.
Proof.
  destruct (scan_s_tokens n s) as [[T ->] | (w & r & Hne & Hw & Hr & T & ->)];
    rewrite T; [reflexivity|].
  cbn [next_field]. exists (skipn n w ++ r). split; [reflexivity|].
  destruct (n <? length w)%nat eqn:E.
  - apply Nat.ltb_lt in E. apply ws_tokens_word.
    + intros N. apply (f_equal (@length ascii)) in N.
      rewrite length_skipn in N. change (length (@nil ascii)) with 0%nat in N. lia.
    + now apply word_skipn.
    + assumption.
  - apply Nat.ltb_ge in E. now rewrite skipn_all2.
Qed.

(** [sscanf] stores three tokens exactly when three fields can be cut
    from the tokens of the text, and then it stores those fields. *)
Lemma sscanf_request_fields (s : cstr) :
  match three_fields (ws_tokens s) with
  | Some fields => sscanf_request s = (3, fields)
  | None => fst (sscanf_request s) <> 3
  end.
Proof.
  unfold three_fields, sscanf_request.
  pose proof (scan_s_field 7 s) as H1.
  destruct (next_field 7 (ws_tokens s)) as [[m t1]|];
    [destruct H1 as (r1 & -> & <-) | rewrite H1; cbv; discriminate].
  rewrite scan_s_skip_ws.
  pose proof (scan_s_field 255 r1) as H2.
  destruct (next_field 255 (ws_tokens r1)) as [[p t2]|];
    [destruct H2 as (r2 & -> & <-) | rewrite H2; cbv; discriminate].
  rewrite scan_s_skip_ws.
  pose proof (scan_s_field 15 r2) as H3.
  destruct (next_field 15 (ws_tokens r2)) as [[pr t3]|];
    [destruct H3 as (r3 & -> & _); reflexivity | rewrite H3; cbv; discriminate].
Qed.

Lemma ws_tokens_from_words (s cur : cstr) :
  word cur -> Forall (fun w => w <> [] /\ word w) (ws_tokens_from cur s).
Proof.
  revert cur; induction s as [|c s IH]; intros cur Hc; simpl.
  - destruct cur; constructor; [split; [discriminate | assumption] | constructor].
  - destruct (isspace c) eqn:E.
    + destruct cur.
      * apply IH. constructor.
      * constructor; [split; [discriminate | assumption]|]. apply IH. constructor.
    + apply IH. apply Forall_app. split; [assumption|]. now repeat constructor.
Qed.

Lemma ws_tokens_words (s : cstr) :
  Forall (fun w => w <> [] /\ word w) (ws_tokens s).
Proof.
  apply ws_tokens_from_words. constructor.
Qed.

(** X1 — A request line whose first three tokens fit their arrays is parsed
    into exactly these tokens, whatever amount and kind of white space
    separates them and whatever follows them. *)
Theorem fitting_tokens_stored (s : cstr) (w1 w2 w3 : cstr) (more : list cstr) :
  ws_tokens s = w1 :: w2 :: w3 :: more ->
  (length w1 <= 7)%nat ->
  (length w2 <= 255)%nat ->
  (length w3 <= 15)%nat ->
  sscanf_request s = (3, (w1, w2, w3)).
Proof.
  intros T L1 L2 L3. pose proof (sscanf_request_fields s) as H.
  rewrite T in H. unfold three_fields, next_field in H.
  replace (7 <? length w1)%nat with false in H
    by (symmetry; apply Nat.ltb_ge; lia).
  replace (255 <? length w2)%nat with false in H
    by (symmetry; apply Nat.ltb_ge; lia).
  now rewrite !firstn_all2 in H by assumption.
Qed.

Lemma fitting_tokens_stored_witness :
  sscanf_request
    ([LF] ++ lit "  GET" ++ ["009"%char] ++ lit "/a.png   HTTP/1.0" ++ CRLF ++
     lit "Host: x") =
  (3, (lit "GET", lit "/a.png", lit "HTTP/1.0")).
Proof.
  apply (fitting_tokens_stored _ (lit "GET") (lit "/a.png") (lit "HTTP/1.0")
           [lit "Host:"; lit "x"]).
  - vm_compute. reflexivity.
  - vm_compute. lia.
  - vm_compute. lia.
  - vm_compute. lia.
Defined.

(** X2 — The three arrays [method[8]], [path[256]] and [protocol[16]] are
    never overrun: a token that [sscanf] stores is not empty, holds no
    white space and has at most 7, 255 and 15 characters. *)
Theorem stored_tokens_bounded (s method path protocol : cstr) :
  sscanf_request s = (3, (method, path, protocol)) ->
  (0 < length method <= 7)%nat /\ word method /\
  (0 < length path <= 255)%nat /\ word path /\
  (0 < length protocol <= 15)%nat /\ word protocol.
Proof.
  unfold sscanf_request. intros H.
  assert (Hscan : forall n s0 tok r,
             (0 < n)%nat -> scan_s n s0 = Some (tok, r) ->
             (0 < length tok <= n)%nat /\ word tok).
  { intros n s0 tok r Hn Hs.
    destruct (scan_s_tokens n s0) as [[_ E] | (w & r' & Hne & Hw & _ & _ & E)];
      rewrite E in Hs; [discriminate|].
    injection Hs as <- <-. split; [|now apply word_firstn].
    rewrite length_firstn. destruct w; [contradiction|]. simpl length. lia. }
  destruct (scan_s 7 s) as [[m r1]|] eqn:E1; [|discriminate].
  destruct (scan_s 255 (skip_ws r1)) as [[p r2]|] eqn:E2; [|discriminate].
  destruct (scan_s 15 (skip_ws r2)) as [[pr r3]|] eqn:E3; [|discriminate].
  injection H as <- <- <-.
  destruct (Hscan 7%nat _ _ _ ltac:(lia) E1).
  destruct (Hscan 255%nat _ _ _ ltac:(lia) E2).
  destruct (Hscan 15%nat _ _ _ ltac:(lia) E3). tauto.
Qed.

Lemma stored_tokens_bounded_witness :
  (0 < length (lit "GETGETG") <= 7)%nat /\ word (lit "GETGETG") /\
  (0 < length (lit "ET") <= 255)%nat /\ word (lit "ET") /\
  (0 < length (lit "/x") <= 15)%nat /\ word (lit "/x").
Proof.
  apply (stored_tokens_bounded (lit "GETGETGET /x")).
  vm_compute. reflexivity.
Defined.

Lemma three_fields_none (tokens : list cstr) :
  three_fields tokens = None <-> lacks_fields tokens.
Proof.
  unfold three_fields, next_field, lacks_fields.
  destruct tokens as [|w1 [|w2 [|w3 more]]]; [tauto| | |].
  - destruct (7 <? length w1)%nat eqn:E1; [|apply Nat.ltb_ge in E1; split; [lia|reflexivity]].
    apply Nat.ltb_lt in E1. rewrite length_skipn.
    destruct (255 <? length w1 - 7)%nat eqn:E2;
      [apply Nat.ltb_lt in E2 | apply Nat.ltb_ge in E2];
      (split; [try discriminate; lia | try reflexivity; lia]).
  - destruct (7 <? length w1)%nat eqn:E1.
    + apply Nat.ltb_lt in E1.
      destruct (255 <? length (skipn 7 w1))%nat;
        (split; [discriminate | lia]).
    + apply Nat.ltb_ge in E1.
      destruct (255 <? length w2)%nat eqn:E2;
        [apply Nat.ltb_lt in E2 | apply Nat.ltb_ge in E2];
        (split; [try discriminate; lia | try reflexivity; lia]).
  - split; [|contradiction].
    destruct (7 <? length w1)%nat; [destruct (255 <? length (skipn 7 w1))%nat|
      destruct (255 <? length w2)%nat]; discriminate.
Qed.

(** X3 — The 400 response is sent exactly for a received buffer that is not
    empty and whose text lacks the tokens for three fields; three or more
    tokens are never rejected, however long they are. *)
Theorem bad_request_iff (os : OS) (root_dir : cstr) (pending : list ascii) :
  has_status 400 (serve os root_dir (RecvData pending)) = true <->
  pending <> [] /\ lacks_fields (ws_tokens (request_text pending)).
Proof.
  rewrite <- three_fields_none.
  pose proof (sscanf_request_fields (request_text pending)) as H.
  destruct (list_eq_dec ascii_dec pending []) as [->|Hne].
  { split; [discriminate | intros [N _]; congruence]. }
  destruct (three_fields (ws_tokens (request_text pending))) as [[[m p] pr]|].
  - split; [|intros [_ N]; discriminate]. intros N. exfalso.
    unfold serve in N. rewrite (handle_client_parsed os root_dir _ _ _ _ H) in N.
    rewrite request_never_malformed in N. discriminate.
  - split; [tauto|]. intros _.
    now rewrite handle_client_malformed.
Qed.

Lemma bad_request_iff_witness :
  has_status 400 (serve (site []) www (RecvData (lit "GET /index.html"))) = true.
Proof.
  apply (proj2 (bad_request_iff (site []) www (lit "GET /index.html"))).
  split; [discriminate | vm_compute; lia].
Defined.

(** *** What every connection does and never does *)

Lemma count_app (test : event -> bool) (a b : list event) :
  count test (a ++ b) = (count test a + count test b)%nat.
Proof.
  unfold count. now rewrite filter_app, length_app.
Qed.

Lemma count_inert (test : event -> bool) (rest : list event) :
  (forall e, inert e = true -> test e = false) ->
  forallb inert rest = true -> count test rest = 0%nat.
Proof.
  intros Ht. unfold count. induction rest as [|e rest IH]; simpl; [reflexivity|].
  rewrite andb_true_iff. intros [He Hr]. rewrite (Ht e He). now apply IH.
Qed.

Lemma inert_not_fopen (rest : list event) (p : cstr) :
  forallb inert rest = true -> ~ In (EFopen p) rest.
Proof.
  intros H N. rewrite forallb_forall in H. specialize (H _ N). discriminate.
Qed.

Ltac trace_compute :=
  cbv [count filter length app last error_response sends
       is_close is_fclose is_free is_undefined opens_stream gets_block
       touches_files].

Ltac connection_cases os root_dir r :=
  let H := fresh "Hrun" in
  let tr := fresh "tr" in
  let E := fresh "Etr" in
  pose proof (serve_runs os root_dir r) as H;
  remember (serve os root_dir r) as tr eqn:E; clear E;
  destruct H as
    [ | | pending Hne Hbad | pending method path protocol tr Hscan Hreq ];
  [ | | |
    destruct Hreq as
      [ Hd | Hd Hm | Hd Hm Hr | rp Hd Hm Hr Hroot | rp rr Hd Hm Hr Hroot Hout
      | rp rr l evs Hd Hm Hr Hroot Hin Hrf ];
    [ | | | | |
      destruct Hrf as
        [ Ho | f Ho Hmax Hmem | f Ho Hmem Hshort | f Ho Hsize Hmem Hfull
        | rest Hinert ] ] ].

(** X4 — On every path that stays within defined behaviour, the connection is
    closed exactly once, and closing it is the last thing done. *)
Theorem connection_closed_last (os : OS) (root_dir : cstr) (r : recv_result) :
  count is_undefined (serve os root_dir r) = 0%nat ->
  count is_close (serve os root_dir r) = 1%nat /\
  last (serve os root_dir r) EUndefined = EClose.
Proof.
  connection_cases os root_dir r; intros Hdef;
    try (revert Hdef; rewrite !count_app; cbv [count filter length is_undefined];
         lia);
    try destruct (os_send os 1 _ =? -1);
    trace_compute; try (split; reflexivity);
    revert Hdef; trace_compute; discriminate.
Qed.

Lemma connection_closed_last_witness :
  count is_close (serve (site []) www (request "GET /style.css HTTP/1.0")) = 1%nat /\
  last (serve (site []) www (request "GET /style.css HTTP/1.0")) EUndefined = EClose.
Proof.
  apply (connection_closed_last (site []) www (request "GET /style.css HTTP/1.0")).
  vm_compute. reflexivity.
Defined.

(** X5 — On every path that stays within defined behaviour, each stream that
    [fopen] returned is closed with [fclose] and each block that [malloc]
    returned is freed: as many closes as streams, as many frees as blocks. *)
Theorem streams_and_blocks_released (os : OS) (root_dir : cstr)
    (r : recv_result) :
  count is_undefined (serve os root_dir r) = 0%nat ->
  count is_fclose (serve os root_dir r) =
    count (opens_stream os) (serve os root_dir r) /\
  count is_free (serve os root_dir r) =
    count (gets_block os) (serve os root_dir r).
Proof.
  connection_cases os root_dir r; intros Hdef;
    try (revert Hdef; rewrite !count_app; cbv [count filter length is_undefined];
         lia);
    try destruct (os_send os 1 _ =? -1);
    trace_compute; rewrite ?Ho, ?Hmem; trace_compute;
    try (split; reflexivity);
    revert Hdef; trace_compute; discriminate.
Qed.

Lemma streams_and_blocks_released_witness :
  count is_fclose (serve (site []) www (request "GET /short.txt HTTP/1.0")) =
    count (opens_stream (site [])) (serve (site []) www (request "GET /short.txt HTTP/1.0")) /\
  count is_free (serve (site []) www (request "GET /short.txt HTTP/1.0")) =
    count (gets_block (site [])) (serve (site []) www (request "GET /short.txt HTTP/1.0")).
Proof.
  apply (streams_and_blocks_released (site []) www (request "GET /short.txt HTTP/1.0")).
  vm_compute. reflexivity.
Defined.

Ltac in_trace H :=
  cbv [In app error_response] in H;
  repeat match type of H with
         | _ \/ _ => destruct H as [H|H]
         | False => contradiction
         | @eq event _ _ => first [discriminate H | injection H as H]
         end.

(** X6 — On a run that stays within defined behaviour, no file is opened
    unless the request is a GET request without [..] in its stripped
    target, and the file is the canonical path of the requested path and
    has the canonical root as a prefix.  (When [realpath(root_dir)] fails,
    line 224 reads an array that was never written and the behaviour is
    undefined; nothing is said of such a run.) *)
Theorem opened_file_contained (os : OS) (root_dir : cstr) (r : recv_result)
    (p : cstr) :
  count is_undefined (serve os root_dir r) = 0%nat ->
  In (EFopen p) (serve os root_dir r) ->
  exists pending path protocol real_root,
    r = RecvData pending /\
    sscanf_request (request_text pending) = (3, (lit "GET", path, protocol)) /\
    strstr (strip_query path) (lit "..") = false /\
    os_realpath os (requested_path_of root_dir (strip_query path)) = Some p /\
    os_realpath os root_dir = Some real_root /\
    starts_with real_root p = true.
Proof.
  connection_cases os root_dir r; intros Hdef Hp;
    try (exfalso; revert Hdef; rewrite ?count_app; trace_compute;
         solve [lia | discriminate]);
    try destruct (os_send os 1 _ =? -1);
    in_trace Hp;
    subst; exists pending, path, protocol, rr; auto 10.
Qed.

Lemma opened_file_contained_witness :
  exists pending path protocol real_root,
    request "GET /leak HTTP/1.0" = RecvData pending /\
    sscanf_request (request_text pending) = (3, (lit "GET", path, protocol)) /\
    strstr (strip_query path) (lit "..") = false /\
    os_realpath (site []) (requested_path_of www (strip_query path)) =
      Some (lit "/srv/www-private/key") /\
    os_realpath (site []) www = Some real_root /\
    starts_with real_root (lit "/srv/www-private/key") = true.
Proof.
  apply (opened_file_contained (site []) www (request "GET /leak HTTP/1.0")
           (lit "/srv/www-private/key")).
  - vm_compute. reflexivity.
  - vm_compute. tauto.
Defined.

(** X7 — The file system is not consulted at all (no [realpath], [fopen],
    [malloc], [fread], [fclose] or [free]) for a dead connection, a
    malformed request, a method other than GET or a target with [..]. *)
Theorem file_system_untouched (os : OS) (root_dir : cstr) (r : recv_result)
    (e : event) :
  In e (serve os root_dir r) ->
  touches_files e = true ->
  exists pending path protocol,
    r = RecvData pending /\
    sscanf_request (request_text pending) = (3, (lit "GET", path, protocol)) /\
    strstr (strip_query path) (lit "..") = false.
Proof.
  connection_cases os root_dir r; intros He Ht;
    try (subst; exists pending, path, protocol; auto; fail);
    in_trace He; subst e; discriminate.
Qed.

Lemma file_system_untouched_witness :
  exists pending path protocol,
    request "GET /missing.png HTTP/1.0" = RecvData pending /\
    sscanf_request (request_text pending) = (3, (lit "GET", path, protocol)) /\
    strstr (strip_query path) (lit "..") = false.
Proof.
  apply (file_system_untouched (site []) www (request "GET /missing.png HTTP/1.0")
           (ERealpath (lit "/srv/www/missing.png"))).
  - vm_compute. tauto.
  - reflexivity.
Defined.

(** X8 — A client that sent at least one byte always gets an answer (as long
    as the run stays within defined behaviour): one response with status
    200, 400, 403, 404 or 501, made of a header send and a body send; only
    after a 200 response can a second one follow, and that one is the 500
    response. *)
Theorem one_response_per_connection (os : OS) (root_dir : cstr)
    (pending : list ascii) :
  pending <> [] ->
  count is_undefined (serve os root_dir (RecvData pending)) = 0%nat ->
  exists code,
    In code [200; 400; 403; 404; 501] /\
    has_status code (serve os root_dir (RecvData pending)) = true /\
    (length (sends (serve os root_dir (RecvData pending))) = 2%nat \/
     code = 200 /\
     exists h1 b1 h2 b2,
       sends (serve os root_dir (RecvData pending)) = [h1; b1; h2; b2] /\
       starts_with (lit "HTTP/1.0 500 ") h2 = true).
Proof.
  intros Hne.
  pose proof (serve_runs os root_dir (RecvData pending)) as Hrun.
  remember (serve os root_dir (RecvData pending)) as tr eqn:Etr. clear Etr.
  inversion Hrun as [ | | ? _ Hbad | ? method path protocol ? Hscan Hreq ];
    subst; [contradiction| |].
  { intros _. exists 400. split; [simpl; tauto|]. split; [reflexivity|].
    left. reflexivity. }
  clear Hrun.
  destruct Hreq as
    [ Hd | Hd Hm | Hd Hm Hr | rp Hd Hm Hr Hroot | rp rr Hd Hm Hr Hroot Hout
    | rp rr l evs Hd Hm Hr Hroot Hin Hrf ].
  - intros _. exists 403. split; [simpl; tauto|]. split; [reflexivity|].
    left. reflexivity.
  - intros _. exists 501. split; [simpl; tauto|]. split; [reflexivity|].
    left. reflexivity.
  - intros _. exists 404. split; [simpl; tauto|]. split; [reflexivity|].
    left. reflexivity.
  - intros Hdef. revert Hdef. trace_compute. discriminate.
  - intros _. exists 403. split; [simpl; tauto|]. split; [reflexivity|].
    left. reflexivity.
  - destruct Hrf as
      [ Ho | f Ho Hmax Hmem | f Ho Hmem Hshort | f Ho Hsize Hmem Hfull
      | rest Hinert ].
    + intros _. exists 404. split; [simpl; tauto|]. split; [reflexivity|].
      left. reflexivity.
    + intros _. exists 404. split; [simpl; tauto|]. split; [reflexivity|].
      left. reflexivity.
    + intros _. exists 404. split; [simpl; tauto|]. split; [reflexivity|].
      left. reflexivity.
    + intros _. exists 200. split; [simpl; tauto|]. split; [reflexivity|].
      destruct (os_send os 1 _ =? -1).
      * right. split; [reflexivity|]. do 4 eexists. split; reflexivity.
      * left. reflexivity.
    + intros Hdef. revert Hdef. rewrite !count_app.
      cbv [count filter length is_undefined]. lia.
Qed.

Lemma one_response_per_connection_witness :
  exists code,
    In code [200; 400; 403; 404; 501] /\
    has_status code (serve (site [1%nat]) www (RecvData (lit "GET / x"))) = true /\
    (length (sends (serve (site [1%nat]) www (RecvData (lit "GET / x")))) = 2%nat \/
     code = 200 /\
     exists h1 b1 h2 b2,
       sends (serve (site [1%nat]) www (RecvData (lit "GET / x"))) = [h1; b1; h2; b2] /\
       starts_with (lit "HTTP/1.0 500 ") h2 = true).
Proof.
  apply (one_response_per_connection (site [1%nat]) www (lit "GET / x")).
  - discriminate.
  - vm_compute. reflexivity.
Defined.

(** X9 — When [malloc] fails, the stream is closed, nothing is freed, and the
    client is told 404 "File not found". *)
Theorem out_of_memory_not_found (os : OS) (root_dir : cstr)
    (pending : list ascii) (path protocol real_requested real_root : cstr)
    (f : file) :
  sscanf_request (request_text pending) = (3, (lit "GET", path, protocol)) ->
  strstr (strip_query path) (lit "..") = false ->
  os_realpath os (requested_path_of root_dir (strip_query path)) =
    Some real_requested ->
  os_realpath os root_dir = Some real_root ->
  starts_with real_root real_requested = true ->
  os_fopen os real_requested = Some f ->
  0 <= f_tell f < LONG_MAX ->
  os_malloc os (f_tell f + 1) = false ->
  serve os root_dir (RecvData pending) =
  [ERealpath (requested_path_of root_dir (strip_query path));
   ERealpath root_dir; EFopen real_requested; EMalloc (f_tell f + 1);
   EFclose] ++
  error_response 404 (lit "File not found") ++ [EClose].
Proof.
  intros Hs Hd Hr Hroot Hin Ho Hsize Hm. unfold serve.
  rewrite (handle_client_parsed os root_dir _ _ _ _ Hs).
  rewrite (request_load_failed os root_dir _ path [] Hd eq_refl _ Hr _ Hroot Hin
             _ (read_file_no_memory os real_requested _ f Ho Hsize Hm)).
  reflexivity.
Qed.

Lemma out_of_memory_not_found_witness :
  serve site_no_memory www (request "GET /index.html HTTP/1.0") =
  [ERealpath (lit "/srv/www/index.html"); ERealpath www;
   EFopen (lit "/srv/www/index.html"); EMalloc 14; EFclose] ++
  error_response 404 (lit "File not found") ++ [EClose].
Proof.
  refine (out_of_memory_not_found site_no_memory www
            (lit "GET /index.html HTTP/1.0" ++ CRLF ++ CRLF)
            (lit "/index.html") (lit "HTTP/1.0")
            (lit "/srv/www/index.html") www
            {| f_tell := 13; f_avail := lit "Hello World!" ++ [LF] |}
            _ _ _ _ _ _ _ _).
  - vm_compute. reflexivity.
  - vm_compute. reflexivity.
  - vm_compute. reflexivity.
  - vm_compute. reflexivity.
  - vm_compute. reflexivity.
  - vm_compute. reflexivity.
  - unfold LONG_MAX. simpl. lia.
  - reflexivity.
Defined.

Lemma stored_path_fits (s method path protocol : cstr) :
  sscanf_request s = (3, (method, path, protocol)) ->
  (length path <= 255)%nat.
Proof.
  unfold sscanf_request. intros H.
  destruct (scan_s 7 s) as [[m r1]|] eqn:E1; [|discriminate].
  destruct (scan_s 255 (skip_ws r1)) as [[p r2]|] eqn:E2; [|discriminate].
  destruct (scan_s 15 (skip_ws r2)) as [[pr r3]|] eqn:E3; [|discriminate].
  injection H as <- <- <-.
  destruct (scan_s_tokens 255 (skip_ws r1)) as [[_ E] | (w & r' & _ & _ & _ & _ & E)];
    rewrite E in E2; [discriminate|].
  apply (f_equal (fun o : option (cstr * cstr) =>
                    match o with Some (t, _) => length t | None => 0%nat end))
    in E2.
  cbv beta iota in E2. rewrite <- E2, length_firstn. lia.
Qed.

(** *** The target and the requested path *)

Lemma cut_at_split (c : ascii) (s : cstr) :
  exists rest,
    s = cut_at c s ++ rest /\ ~ In c (cut_at c s) /\
    (rest = [] \/ exists rest', rest = c :: rest').
Proof.
  induction s as [|x s (rest & E & Hn & Hr)]; simpl.
  - exists []. repeat split; [tauto | now left].
  - destruct (Ascii.eqb x c) eqn:Ex.
    + apply Ascii.eqb_eq in Ex. subst x. exists (c :: s).
      repeat split; [tauto | right; now exists s].
    + apply Ascii.eqb_neq in Ex. exists rest. repeat split.
      * simpl. now f_equal.
      * simpl. intros [N|N]; [congruence | contradiction].
      * assumption.
Qed.

(** X10 — What is left of a target is its longest prefix without [?] and [#]:
    the query string and the fragment never reach the file system, and
    nothing else is removed. *)
Theorem strip_query_longest_prefix (path : cstr) :
  exists rest,
    path = strip_query path ++ rest /\
    ~ In "?"%char (strip_query path) /\
    ~ In "#"%char (strip_query path) /\
    (rest = [] \/
     exists c rest', rest = c :: rest' /\ (c = "?"%char \/ c = "#"%char)).
Proof.
  unfold strip_query.
  destruct (cut_at_split "?"%char path) as (r1 & E1 & N1 & H1).
  destruct (cut_at_split "#"%char (cut_at "?"%char path)) as (r2 & E2 & N2 & H2).
  exists (r2 ++ r1). repeat split.
  - rewrite app_assoc, <- E2. exact E1.
  - intros N. apply N1. rewrite E2. apply in_app_iff. now left.
  - exact N2.
  - destruct H2 as [->|(r2' & ->)].
    + destruct H1 as [->|(r1' & ->)]; [now left|].
      right. exists "?"%char, r1'. split; [reflexivity | now left].
    + right. exists "#"%char, (r2' ++ r1). split; [reflexivity | now right].
Qed.

Lemma length_cut_at (c : ascii) (s : cstr) : (length (cut_at c s) <= length s)%nat.
Proof.
  induction s as [|x s IH]; simpl; [lia|].
  destruct (Ascii.eqb x c); simpl; lia.
Qed.

Lemma length_strip_query (path : cstr) :
  (length (strip_query path) <= length path)%nat.
Proof.
  unfold strip_query.
  pose proof (length_cut_at "#"%char (cut_at "?"%char path)).
  pose proof (length_cut_at "?"%char path). lia.
Qed.

(** X11 — The array [requested_path] is never overrun, and with a root
    directory of at most 3840 bytes no request is ever cut short: the
    path handed to [realpath] is the root directory followed by the
    stripped target, or by [/index.html] for the target [/]. *)
Theorem requested_path_not_truncated (root_dir : cstr) (s : cstr)
    (method path protocol : cstr) :
  sscanf_request s = (3, (method, path, protocol)) ->
  (length (requested_path_of root_dir (strip_query path)) < PATH_MAX)%nat /\
  ((length root_dir <= 3840)%nat ->
   requested_path_of root_dir (strip_query path) =
   if cstr_eq_dec (strip_query path) (lit "/")
   then root_dir ++ lit "/index.html"
   else root_dir ++ strip_query path).
Proof.
  intros H. apply stored_path_fits in H.
  pose proof (length_strip_query path) as Hl.
  unfold requested_path_of, snprintf. cbn [fst]. split.
  - rewrite length_firstn. unfold PATH_MAX. lia.
  - intros Hroot. rewrite strcmp_eqb.
    destruct (cstr_eq_dec (strip_query path) (lit "/")).
    + apply firstn_all2. rewrite length_app. unfold lit, PATH_MAX. simpl. lia.
    + apply firstn_all2. rewrite length_app. unfold PATH_MAX. lia.
Qed.

Lemma requested_path_not_truncated_witness :
  (length (requested_path_of www (strip_query (lit "/a.css?v=2"))) < PATH_MAX)%nat /\
  requested_path_of www (strip_query (lit "/a.css?v=2")) =
  if cstr_eq_dec (strip_query (lit "/a.css?v=2")) (lit "/")
  then www ++ lit "/index.html"
  else www ++ strip_query (lit "/a.css?v=2").
Proof.
  destruct (requested_path_not_truncated www (lit "GET /a.css?v=2 HTTP/1.0")
              (lit "GET") (lit "/a.css?v=2") (lit "HTTP/1.0")) as [H1 H2].
  - vm_compute. reflexivity.
  - split; [exact H1|]. apply H2. unfold www, lit. simpl. lia.
Defined.

(** *** The response writer *)

(** X12 — [send_error] never overruns [body[256]]: for every status code and
    every message, however long, it sends the reason phrase of the code
    (or "Error"), the JSON content type, and as body the first 255 bytes
    of the JSON text, with a Content-Length that is the length of what is
    sent. *)
Theorem send_error_bounded (os : OS) (code : Z) (message : cstr)
    (tr : list event) :
  let body := firstn 255 (error_body message) in
  (0 < length body <= 255)%nat /\
  send_error os code message tr =
  (tt, tr ++ [ ESend (header_format
                        (print_dec code ++ lit " " ++ status_text code)
                        (lit "application/json") (strlen body));
               ESend body ]).
Proof.
  intros body.
  assert (Hb : (0 < length body <= 255)%nat).
  { unfold body. rewrite length_firstn, length_error_body. lia. }
  split; [exact Hb|].
  unfold send_error, status_text, snprintf.
  change (firstn (256 - 1) (error_body message)) with body.
  destruct (code =? 400) eqn:E400;
    [apply Z.eqb_eq in E400; subst code
    |destruct (code =? 403) eqn:E403;
      [apply Z.eqb_eq in E403; subst code
      |destruct (code =? 404) eqn:E404;
        [apply Z.eqb_eq in E404; subst code
        |destruct (code =? 500) eqn:E500;
          [apply Z.eqb_eq in E500; subst code|]]]];
    apply send_response_run;
    solve [unfold lit; simpl; lia | lia].
Qed.

(** X13 — Without a body (NULL, or the empty string) [send_response] sends the
    header block alone, with [Content-Length: 0]. *)
Theorem send_response_without_body (os : OS) (status_code : Z)
    (text content_type : cstr) (body : option cstr) (tr : list event) :
  body = None \/ body = Some [] ->
  (length text + length content_type <= 400)%nat ->
  send_response os status_code text content_type body tr =
  (tt, tr ++ [ ESend (header_format (print_dec status_code ++ lit " " ++ text)
                        content_type 0) ]).
Proof.
  intros Hb Hfit. unfold send_response.
  assert (Hlen : match body with
                 | Some b => int_of_size_t (strlen b)
                 | None => 0
                 end = 0).
  { destruct Hb as [->| ->]; reflexivity. }
  rewrite Hlen. rewrite snprintf_fits.
  - unfold bind. rewrite send_run. destruct Hb as [->| ->]; reflexivity.
  - rewrite length_header_format, !length_app.
    pose proof (length_print_dec status_code).
    change (length (print_dec 0)) with 1%nat. simpl. lia.
Qed.

Lemma send_response_without_body_witness :
  send_response (site []) 204 (lit "No Content") (lit "text/plain") (Some []) [] =
  (tt, [ ESend (header_format (print_dec 204 ++ lit " " ++ lit "No Content")
                  (lit "text/plain") 0) ]).
Proof.
  apply (send_response_without_body (site []) 204 (lit "No Content")
           (lit "text/plain") (Some []) []).
  - right. reflexivity.
  - vm_compute. lia.
Defined.

(** *** Content type of a dotted directory *)

(** X14 — When the file name has no [.] but a directory above it has one, the
    extension compared is the rest of the path from that directory's [.]
    on; it holds a [/], matches no entry of the table, and the type is
    application/octet-stream (not text/plain). *)
Theorem dotted_directory_octet_stream (stem ext : cstr) :
  ~ In "."%char ext ->
  In "/"%char ext ->
  get_content_type (stem ++ "."%char :: ext) = lit "application/octet-stream".
Proof.
  intros Hdot Hslash. unfold get_content_type. rewrite strrchr_last by assumption.
  change (lit ".html") with ("."%char :: lit "html").
  change (lit ".jpg") with ("."%char :: lit "jpg").
  change (lit ".jpeg") with ("."%char :: lit "jpeg").
  change (lit ".png") with ("."%char :: lit "png").
  change (lit ".css") with ("."%char :: lit "css").
  change (lit ".js") with ("."%char :: lit "js").
  rewrite !extension_test.
  repeat match goal with
         | |- context [cstr_eq_dec ext ?k] =>
             destruct (cstr_eq_dec ext k) as [E|_];
             [exfalso; rewrite E in Hslash; unfold lit in Hslash;
              simpl in Hslash;
              repeat (destruct Hslash as [Hslash|Hslash];
                      [discriminate Hslash|]);
              contradiction
             |]
         end.
  reflexivity.
Qed.

Lemma dotted_directory_octet_stream_witness :
  get_content_type (lit "/srv/www/v1" ++ "."%char :: lit "2/README") =
  lit "application/octet-stream".
Proof.
  apply (dotted_directory_octet_stream (lit "/srv/www/v1") (lit "2/README")).
  - unfold lit. simpl. intros H.
    repeat (destruct H as [H|H]; [discriminate H|]). contradiction.
  - unfold lit. simpl. tauto.
Defined.

(** *** The file loader *)

(** X15 — [read_file] is all or nothing: when it returns a buffer, the size it
    reports is the stored [ftell] result, it is not negative, the buffer
    holds exactly that many bytes (the first ones [fread] could deliver,
    even if the file has grown since), one block of [size + 1] bytes was
    allocated, and the stream is closed. *)
Theorem read_file_all_or_nothing (os : OS) (file_path : cstr)
    (tr tr' : list event) (body : list ascii) (size : Z) :
  read_file os file_path tr = (Loaded body size, tr') ->
  exists f,
    os_fopen os file_path = Some f /\
    size = long_of (f_tell f) /\ 0 <= size < LONG_MAX /\
    strlen body = size /\
    body = firstn (Z.to_nat size) (f_avail f) /\
    tr' = tr ++ [EFopen file_path; EMalloc (size + 1); EFread size; EFclose].
Proof.
  intros H.
  destruct (read_file_runs os file_path tr) as (l & evs & E & Hrun).
  rewrite E in H. injection H as -> <-.
  inversion Hrun as [ | | |f Ho Hsize Hmem Hfull| ]; subst.
  exists f. repeat split; try assumption; try lia.
  unfold strlen. rewrite firstn_length_le by lia. lia.
Qed.

Lemma read_file_all_or_nothing_witness :
  exists f,
    os_fopen (site []) (lit "/srv/www/index.html") = Some f /\
    13 = long_of (f_tell f) /\ 0 <= 13 < LONG_MAX /\
    strlen (lit "Hello World!" ++ [LF]) = 13 /\
    lit "Hello World!" ++ [LF] = firstn (Z.to_nat 13) (f_avail f) /\
    [EFopen (lit "/srv/www/index.html"); EMalloc 14; EFread 13; EFclose] =
    [] ++ [EFopen (lit "/srv/www/index.html"); EMalloc (13 + 1); EFread 13; EFclose].
Proof.
  apply (read_file_all_or_nothing (site []) (lit "/srv/www/index.html") []).
  vm_compute. reflexivity.
Defined.

(** *** Start-up and the accept loop *)

Lemma try_candidates_first (cands : list candidate) (i : nat) :
  fst (try_candidates cands i) = option_map (Nat.add i) (first_usable cands).
Proof.
  revert i; induction cands as [|c rest IH]; intros i; [reflexivity|].
  cbn [try_candidates first_usable]. unfold usable.
  specialize (IH (S i)).
  destruct (try_candidates rest (S i)) as [r evs]. cbn [fst] in IH.
  assert (Hshift : r = option_map (Nat.add i) (option_map S (first_usable rest))).
  { rewrite IH. destruct (first_usable rest); cbn; [f_equal; lia | reflexivity]. }
  destruct (cand_socket c), (cand_bind c), (cand_listen c); cbn;
    try exact Hshift.
  f_equal. lia.
Qed.

Lemma try_candidates_sockets (cands : list candidate) (i : nat) :
  count_main binds (snd (try_candidates cands i)) =
  (count_main closes_socket (snd (try_candidates cands i)) +
   match fst (try_candidates cands i) with Some _ => 1 | None => 0 end)%nat.
Proof.
  revert i; induction cands as [|c rest IH]; intros i; [reflexivity|].
  cbn [try_candidates]. specialize (IH (S i)).
  destruct (try_candidates rest (S i)) as [r evs]. cbn [fst snd] in IH.
  destruct (cand_socket c), (cand_bind c), (cand_listen c); cbn [negb fst snd];
    unfold count_main in *; cbn; lia.
Qed.

Lemma count_main_app (test : main_event -> bool) (a b : list main_event) :
  count_main test (a ++ b) = (count_main test a + count_main test b)%nat.
Proof.
  unfold count_main. now rewrite filter_app, length_app.
Qed.

Lemma accept_loop_sockets (test : main_event -> bool) (root_dir : cstr)
    (accepts : list accept_result) :
  (forall e, test e = true ->
             match e with MBind _ | MCloseSocket _ => True | _ => False end) ->
  count_main test (accept_loop root_dir accepts) = 0%nat.
Proof.
  intros Ht. unfold count_main.
  assert (Hf : forall e, match e with MBind _ | MCloseSocket _ => False | _ => True end ->
                         test e = false).
  { intros e He. destruct (test e) eqn:E; [|reflexivity].
    apply Ht in E. destruct e; contradiction. }
  induction accepts as [|[|c] rest IH]; cbn [accept_loop app filter];
    rewrite ?Hf by exact I; try exact IH. reflexivity.
Qed.

(** X16 — [main] exits with code 1 when an argument is missing or [getaddrinfo]
    fails, and with code 2 when no candidate address gets through
    [socket], [bind] and [listen]; otherwise it never leaves the accept
    loop, whatever [accept] returns.  It never exits with code 0. *)
Theorem main_exit_code (argv : list cstr)
    (getaddrinfo : cstr -> cstr + list candidate)
    (accepts : list accept_result) :
  fst (main argv getaddrinfo accepts) =
  (if (length argv <? 3)%nat then Exit 1
   else match getaddrinfo (nth 1 argv []) with
        | inl _ => Exit 1
        | inr cands =>
            match first_usable cands with
            | Some _ => Running
            | None => Exit 2
            end
        end) /\
  fst (main argv getaddrinfo accepts) <> Exit 0.
Proof.
  assert (H : fst (main argv getaddrinfo accepts) =
    (if (length argv <? 3)%nat then Exit 1
     else match getaddrinfo (nth 1 argv []) with
          | inl _ => Exit 1
          | inr cands =>
              match first_usable cands with
              | Some _ => Running
              | None => Exit 2
              end
          end)).
  { unfold main.
    replace (Z.of_nat (length argv) <? 3) with (length argv <? 3)%nat.
    2:{ destruct (length argv <? 3)%nat eqn:E; symmetry;
        [apply Nat.ltb_lt in E; apply Z.ltb_lt | apply Nat.ltb_ge in E; apply Z.ltb_ge];
        lia. }
    destruct (length argv <? 3)%nat; [reflexivity|].
    destruct (getaddrinfo (nth 1 argv [])) as [msg|cands]; [reflexivity|].
    pose proof (try_candidates_first cands 0) as Hf.
    destruct (try_candidates cands 0) as [r evs]. cbn [fst] in Hf. subst r.
    destruct (first_usable cands); reflexivity. }
  split; [exact H|]. rewrite H.
  destruct (length argv <? 3)%nat; [discriminate|].
  destruct (getaddrinfo (nth 1 argv [])); [discriminate|].
  destruct (first_usable l); discriminate.
Qed.

(** X17 — Whenever [main] gives up with exit code 2, every socket it created
    has been closed again; while it serves, exactly one socket that it
    bound is open, the listening one. *)
Theorem main_closes_failed_sockets (argv : list cstr)
    (getaddrinfo : cstr -> cstr + list candidate)
    (accepts : list accept_result) :
  count_main binds (snd (main argv getaddrinfo accepts)) =
  (count_main closes_socket (snd (main argv getaddrinfo accepts)) +
   match fst (main argv getaddrinfo accepts) with
   | Running => 1
   | Exit _ => 0
   end)%nat.
Proof.
  unfold main.
  destruct (Z.of_nat (length argv) <? 3); [reflexivity|].
  destruct (getaddrinfo (nth 1 argv [])) as [msg|cands]; [reflexivity|].
  pose proof (try_candidates_sockets cands 0) as Hs.
  destruct (try_candidates cands 0) as [[k|] evs]; cbn [fst snd] in *.
  - rewrite !count_main_app, Hs.
    rewrite !accept_loop_sockets by (intros [] He; try discriminate He; exact I).
    unfold count_main. cbn. lia.
  - rewrite !count_main_app, Hs. unfold count_main. cbn. lia.
Qed.

Lemma connections_app (a b : list main_event) :
  connections (a ++ b) = connections a ++ connections b.
Proof.
  induction a as [|e a IH]; [reflexivity|].
  destruct e; cbn; now rewrite ?IH.
Qed.

Lemma try_candidates_no_connection (cands : list candidate) (i : nat) :
  connections (snd (try_candidates cands i)) = [].
Proof.
  revert i; induction cands as [|c rest IH]; intros i; [reflexivity|].
  cbn [try_candidates]. specialize (IH (S i)).
  destruct (try_candidates rest (S i)) as [r evs]. cbn [snd] in IH.
  destruct (cand_socket c), (cand_bind c), (cand_listen c); cbn; assumption || reflexivity.
Qed.

(** X18 — Once [main] is listening, the clients are served strictly in the
    order in which [accept] returns them, one whole connection after the
    other, each with the root directory [argv[2]]; a failed [accept] is
    skipped and ends nothing. *)
Theorem main_serves_in_order (argv : list cstr)
    (getaddrinfo : cstr -> cstr + list candidate)
    (accepts : list accept_result) :
  fst (main argv getaddrinfo accepts) = Running ->
  connections (snd (main argv getaddrinfo accepts)) =
  map (fun c => serve (conn_os c) (nth 2 argv []) (conn_recv c))
    (accepted accepts).
Proof.
  unfold main.
  destruct (Z.of_nat (length argv) <? 3); [discriminate|].
  destruct (getaddrinfo (nth 1 argv [])) as [msg|cands]; [discriminate|].
  pose proof (try_candidates_no_connection cands 0) as Hn.
  destruct (try_candidates cands 0) as [[k|] evs]; [|discriminate].
  intros _. cbn [fst snd] in *.
  rewrite !connections_app, Hn. cbn [connections app].
  induction accepts as [|[|c] rest IH]; cbn; [reflexivity | exact IH | now rewrite IH].
Qed.

Lemma main_serves_in_order_witness :
  connections
    (snd (main server_argv (fun _ => inr three_candidates) two_clients)) =
  map (fun c => serve (conn_os c) (nth 2 server_argv []) (conn_recv c))
    (accepted two_clients).
Proof.
  apply (main_serves_in_order server_argv (fun _ => inr three_candidates)
           two_clients).
  vm_compute. reflexivity.
Defined.

(** X19 — The server listens on the first candidate for which [socket], [bind]
    and [listen] all succeed; the candidates after it are not tried at
    all. *)
Theorem listens_on_first_usable (before after : list candidate)
    (c : candidate) :
  forallb (fun x => negb (usable x)) before = true ->
  usable c = true ->
  try_candidates (before ++ c :: after) 0 =
  (Some (length before), snd (try_candidates (before ++ [c]) 0)).
Proof.
  intros Hb Hc.
  assert (H : forall i,
             try_candidates (before ++ c :: after) i =
             (Some (i + length before)%nat,
              snd (try_candidates (before ++ [c]) i))).
  { induction before as [|b before IH]; intros i.
    - unfold usable in Hc. apply andb_true_iff in Hc as [Hc Hl].
      apply andb_true_iff in Hc as [Hs Hbd].
      cbn [app try_candidates length]. rewrite Hs, Hbd, Hl. cbn.
      f_equal. f_equal. lia.
    - cbn [forallb] in Hb. apply andb_true_iff in Hb as [Hb0 Hb].
      cbn [app try_candidates length]. rewrite (IH Hb (S i)).
      unfold usable in Hb0.
      destruct (try_candidates (before ++ [c]) (S i)) as [r evs].
      destruct (cand_socket b), (cand_bind b), (cand_listen b);
        try discriminate Hb0; cbn; f_equal; f_equal; lia. }
  exact (H 0%nat).
Qed.

Lemma listens_on_first_usable_witness :
  try_candidates three_candidates 0 =
  (Some 2%nat,
   [MSocket 0; MPerror (lit "socket");
    MSocket 1; MBind 1; MPerror (lit "bind"); MCloseSocket 1;
    MSocket 2; MBind 2; MListen 2]).
Proof.
  apply (listens_on_first_usable
           [ {| cand_socket := false; cand_bind := true; cand_listen := true |};
             {| cand_socket := true; cand_bind := false; cand_listen := true |} ]
           []
           {| cand_socket := true; cand_bind := true; cand_listen := true |});
    reflexivity.
Defined.

(** *** The default document *)

(** C6 — the target [/] is mapped to [<root_dir>/index.html]: that string
    (cut at [PATH_MAX - 1] bytes by [snprintf], which cuts nothing when
    it fits) is the path requested for [/] as for [/index.html], and it is
    the first thing a GET request for [/] hands to [realpath].  Hence,
    with the same root directory and the same operating system behaviour,
    a GET request for [/] and a GET request for [/index.html] make the
    same system calls and send the same bytes. *)
Theorem index_round_trip (os : OS) (root_dir : cstr)
    (pending1 pending2 : list ascii) (protocol1 protocol2 : cstr) :
  sscanf_request (request_text pending1) = (3, (lit "GET", lit "/", protocol1)) ->
  sscanf_request (request_text pending2) =
    (3, (lit "GET", lit "/index.html", protocol2)) ->
  let index := firstn (PATH_MAX - 1) (root_dir ++ lit "/index.html") in
  requested_path_of root_dir (strip_query (lit "/")) = index /\
  requested_path_of root_dir (strip_query (lit "/index.html")) = index /\
  ((length root_dir + 11 < PATH_MAX)%nat ->
   index = root_dir ++ lit "/index.html") /\
  (exists rest,
      serve os root_dir (RecvData pending1) = ERealpath index :: rest) /\
  serve os root_dir (RecvData pending1) = serve os root_dir (RecvData pending2).
Proof.
  intros H1 H2 index.
  split; [reflexivity|]. split; [reflexivity|]. split; [|split].
  - intros Hfit. unfold index. apply firstn_all2.
    rewrite length_app. change (length (lit "/index.html")) with 11%nat. lia.
  - unfold serve. rewrite (handle_client_parsed os root_dir _ _ _ _ H1).
    pose proof (handle_request_runs os root_dir (lit "GET") (lit "/")) as Hrun.
    remember (snd (handle_request os root_dir (lit "GET") (lit "/") [])) as tr
      eqn:Etr. clear Etr.
    destruct Hrun as
      [ Hd | Hd Hm | Hd Hm Hr | rp Hd Hm Hr Hroot | rp rr Hd Hm Hr Hroot Hout
      | rp rr l evs Hd Hm Hr Hroot Hin Hrf ].
    + vm_compute in Hd. discriminate.
    + contradiction.
    + eexists. reflexivity.
    + eexists. reflexivity.
    + eexists. reflexivity.
    + eexists. reflexivity.
  - unfold serve.
    rewrite (handle_client_parsed os root_dir _ _ _ _ H1).
    rewrite (handle_client_parsed os root_dir _ _ _ _ H2).
    reflexivity.
Qed.

Lemma index_round_trip_witness :
  let index := firstn (PATH_MAX - 1) (www ++ lit "/index.html") in
  requested_path_of www (strip_query (lit "/")) = index /\
  requested_path_of www (strip_query (lit "/index.html")) = index /\
  ((length www + 11 < PATH_MAX)%nat -> index = www ++ lit "/index.html") /\
  (exists rest,
      serve (site []) www (request "GET / HTTP/1.0") = ERealpath index :: rest) /\
  serve (site []) www (request "GET / HTTP/1.0") =
  serve (site []) www (request "GET /index.html HTTP/1.1").
Proof.
  apply (index_round_trip (site []) www
           (lit "GET / HTTP/1.0" ++ CRLF ++ CRLF)
           (lit "GET /index.html HTTP/1.1" ++ CRLF ++ CRLF)
           (lit "HTTP/1.0") (lit "HTTP/1.1")).
  - vm_compute. reflexivity.
  - vm_compute. reflexivity.
Defined.
